(** * ansi_colours: true-colour <-> ANSI 256-colour palette conversion

    A shallow embedding of [src/ansi256.c] and the properties of its two
    public operations, [rgb_from_ansi256] and [ansi256_from_rgb].

    C integers are modelled as [Z] with the wrap-around of every unsigned
    operation written out.  Signed [int32_t] arithmetic, whose overflow is
    undefined in C, and array accesses, which are undefined out of bounds,
    live in the [option] monad: [None] stands for "the C program has no
    defined result". *)

From Stdlib Require Import ZArith List Bool Lia.
Import ListNotations.
Local Open Scope Z_scope.

(** ** The error monad for undefined behaviour *)

Definition bind {A B : Type} (m : option A) (k : A -> option B) : option B :=
  match m with
  | Some a => k a
  | None => None
  end.

Notation "x <- m ;; k" := (bind m (fun x => k))
  (at level 61, m at next level, right associativity).

(** ** Machine integers *)

Module CInt.

(** Conversion to [uint8_t] and [uint32_t]: reduction modulo 2^w. *)
Definition u8 (v : Z) : Z := v mod 2 ^ 8.
Definition u32 (v : Z) : Z := v mod 2 ^ 32.

(** [uint32_t] arithmetic. *)
Definition u32_add (a b : Z) : Z := u32 (a + b).
Definition u32_mul (a b : Z) : Z := u32 (a * b).
Definition u32_shl (a n : Z) : Z := u32 (Z.shiftl a n).

(** [int32_t] arithmetic: a result outside the type is undefined. *)
Definition int32_min : Z := - 2 ^ 31.
Definition int32_max : Z := 2 ^ 31 - 1.

Definition in_int32 (v : Z) : bool := (int32_min <=? v) && (v <=? int32_max).

Definition int32 (v : Z) : option Z := if in_int32 v then Some v else None.

Definition int32_add (a b : Z) : option Z := int32 (a + b).
Definition int32_sub (a b : Z) : option Z := int32 (a - b).
Definition int32_mul (a b : Z) : option Z := int32 (a * b).

End CInt.
Import CInt.

(** Reading entry [i] of a C array: defined only inside the array. *)
Definition lookup {A : Type} (tbl : list A) (i : Z) : option A :=
  if i <? 0 then None else nth_error tbl (Z.to_nat i).

(** ** The channel macros [R], [G], [B] *)

Definition R (c : Z) : Z := Z.land (Z.shiftr c 16) 0xff.
Definition G (c : Z) : Z := Z.land (Z.shiftr c 8) 0xff.
Definition B (c : Z) : Z := Z.land c 0xff.

(** The packing used by the caller in [examples/convert.c]:
    [(r << 16) | (g << 8) | b]. *)
Definition pack (r g b : Z) : Z :=
  Z.lor (Z.lor (u32_shl r 16) (u32_shl g 8)) b.

(** ** [cube_value] *)

Definition values : list Z := [0; 95; 135; 175; 215; 255].

Definition cube_value (idx : Z) : option Z := lookup values idx.

(** ** [rgb_from_ansi256] *)

Definition system_colours : list Z :=
  [ 0x000000; 0xce0000; 0x00ce00; 0xcece00;
    0x0000ee; 0xce00ce; 0x00cece; 0xefefef;
    0x7f7f7f; 0xff0000; 0x00ff00; 0xffff00;
    0x5c5cff; 0xff00ff; 0x00ffff; 0xffffff ].

(** The parameter is a [uint8_t].  Its arithmetic is done in [int] after
    integer promotion (no operand exceeds 255, so nothing can overflow) and
    each assignment back to [index] converts to [uint8_t]. *)
Definition rgb_from_ansi256 (idx : Z) : option Z :=
  if Z.land idx 0xf0 =? 0 then
    lookup system_colours idx
  else if idx <? 232 then
    let idx := u8 (idx - 16) in
    r <- cube_value (u8 (Z.quot idx 36)) ;;
    g <- cube_value (u8 (Z.rem (Z.quot idx 6) 6)) ;;
    b <- cube_value (u8 (Z.rem idx 6)) ;;
    Some (Z.lor (Z.lor (u32_shl r 16) (u32_shl g 8)) b)
  else
    let idx := u8 ((idx - 232) * 10 + 8) in
    Some (u32_mul idx 0x010101).

(** ** [cube_index_red], [cube_index_green], [cube_index_blue] *)

(** The macro [CUBE_THRESHOLDS], abstracted over the [IDX] in force where it
    is expanded. *)
Definition CUBE_THRESHOLDS (IDX : Z -> Z -> Z) (a b c d e : Z) (v : Z) : Z :=
  if v <? a then IDX 0 0
  else if v <? b then IDX 1 95
  else if v <? c then IDX 2 135
  else if v <? d then IDX 3 175
  else if v <? e then IDX 4 215
  else IDX 5 255.

Definition IDX_red (i v : Z) : Z :=
  Z.lor (u32_shl (u32_add (u32_mul i 36) 16) 24) (u32_shl v 16).

Definition IDX_green (i v : Z) : Z :=
  Z.lor (u32_shl (u32_mul i 6) 24) (u32_shl v 8).

Definition IDX_blue (i v : Z) : Z :=
  Z.lor (u32_shl i 24) (u32 v).

Definition cube_index_red (v : Z) : Z :=
  CUBE_THRESHOLDS IDX_red 38 115 155 196 235 v.

Definition cube_index_green (v : Z) : Z :=
  CUBE_THRESHOLDS IDX_green 36 116 154 195 235 v.

Definition cube_index_blue (v : Z) : Z :=
  CUBE_THRESHOLDS IDX_blue 35 115 155 195 235 v.

(** ** [luminance] *)

Definition luminance (rgb : Z) : Z :=
  u8 (Z.shiftr
        (u32_add (u32_add (u32_mul 3568058 (R rgb))
                          (u32_mul 11998262 (G rgb)))
                 (u32_mul 1210896 (B rgb)))
        24).

(** ** [distance] *)

(** The three channel differences and the final expression are [int32_t]
    computations, evaluated left to right as C parses them; the result is
    converted to [uint32_t] on return. *)
Definition distance (x y : Z) : option Z :=
  r_sum <- int32 (u32_add (R x) (R y)) ;;
  rx <- int32 (R x) ;; ry <- int32 (R y) ;; r <- int32_sub rx ry ;;
  gx <- int32 (G x) ;; gy <- int32 (G y) ;; g <- int32_sub gx gy ;;
  bx <- int32 (B x) ;; by_ <- int32 (B y) ;; b <- int32_sub bx by_ ;;
  wr <- int32_add 1024 r_sum ;;
  t1 <- int32_mul wr r ;;
  red <- int32_mul t1 r ;;
  t2 <- int32_mul 2048 g ;;
  green <- int32_mul t2 g ;;
  wb <- int32_sub 1534 r_sum ;;
  t3 <- int32_mul wb b ;;
  blue <- int32_mul t3 b ;;
  s <- int32_add red green ;;
  d <- int32_add s blue ;;
  Some (u32 d).

(** ** [ansi256_from_rgb] *)

Definition ansi256_from_grey : list Z :=
  [  16;  16;  16;  16;  16; 232; 232; 232;
    232; 232; 232; 232; 232; 232; 233; 233;
    233; 233; 233; 233; 233; 233; 233; 233;
    234; 234; 234; 234; 234; 234; 234; 234;
    234; 234; 235; 235; 235; 235; 235; 235;
    235; 235; 235; 235; 236; 236; 236; 236;
    236; 236; 236; 236; 236; 236; 237; 237;
    237; 237; 237; 237; 237; 237; 237; 237;
    238; 238; 238; 238; 238; 238; 238; 238;
    238; 238; 239; 239; 239; 239; 239; 239;
    239; 239; 239; 239; 240; 240; 240; 240;
    240; 240; 240; 240;  59;  59;  59;  59;
     59; 241; 241; 241; 241; 241; 241; 241;
    242; 242; 242; 242; 242; 242; 242; 242;
    242; 242; 243; 243; 243; 243; 243; 243;
    243; 243; 243; 244; 244; 244; 244; 244;
    244; 244; 244; 244; 102; 102; 102; 102;
    102; 245; 245; 245; 245; 245; 245; 246;
    246; 246; 246; 246; 246; 246; 246; 246;
    246; 247; 247; 247; 247; 247; 247; 247;
    247; 247; 247; 248; 248; 248; 248; 248;
    248; 248; 248; 248; 145; 145; 145; 145;
    145; 249; 249; 249; 249; 249; 249; 250;
    250; 250; 250; 250; 250; 250; 250; 250;
    250; 251; 251; 251; 251; 251; 251; 251;
    251; 251; 251; 252; 252; 252; 252; 252;
    252; 252; 252; 252; 188; 188; 188; 188;
    188; 253; 253; 253; 253; 253; 253; 254;
    254; 254; 254; 254; 254; 254; 254; 254;
    254; 255; 255; 255; 255; 255; 255; 255;
    255; 255; 255; 255; 255; 255; 255; 231;
    231; 231; 231; 231; 231; 231; 231; 231 ].

(** The test [R(rgb) == G(rgb) && G(rgb) == B(rgb)] guarding the fast path. *)
Definition is_grey (rgb : Z) : bool :=
  (R rgb =? G rgb) && (G rgb =? B rgb).

(** The value of the local [cube]: the three packed results added up as
    [uint32_t], each argument converted to the [uint8_t] parameter. *)
Definition cube_candidate (rgb : Z) : Z :=
  u32_add (u32_add (cube_index_red (u8 (R rgb)))
                   (cube_index_green (u8 (G rgb))))
          (cube_index_blue (u8 (B rgb))).

(** The conditional expression has type [uint32_t]; returning it converts
    to [uint8_t]. *)
Definition ansi256_from_rgb (rgb : Z) : option Z :=
  if is_grey rgb then
    lookup ansi256_from_grey (Z.land rgb 0xff)
  else
    grey_index <- lookup ansi256_from_grey (luminance rgb) ;;
    grey_rgb <- rgb_from_ansi256 grey_index ;;
    grey_distance <- distance rgb grey_rgb ;;
    let cube := cube_candidate rgb in
    cube_distance <- distance rgb cube ;;
    Some (u8 (if cube_distance <? grey_distance
              then Z.shiftr cube 24
              else grey_index)).

(** * The specification's vocabulary

    Definitions that follow the words of the specification rather than the
    code; the theorems below relate them to the embedding above. *)

Module Spec.

(** Threshold quantisation (spec 4.4): the inputs below the first
    threshold fall in bucket 0, and passing a threshold moves to the next
    bucket; past the last one lies the top bucket. *)
Fixpoint quantize (thresholds : list Z) (v : Z) : Z :=
  match thresholds with
  | [] => 0
  | t :: rest => if v <? t then 0 else 1 + quantize rest v
  end.

Definition red_thresholds : list Z := [38; 115; 155; 196; 235].
Definition green_thresholds : list Z := [36; 116; 154; 195; 235].
Definition blue_thresholds : list Z := [35; 115; 155; 195; 235].

Definition red_digit : Z -> Z := quantize red_thresholds.
Definition green_digit : Z -> Z := quantize green_thresholds.
Definition blue_digit : Z -> Z := quantize blue_thresholds.

(** The cube-level table {0,95,135,175,215,255} as a function of a digit. *)
Definition cube_level (d : Z) : Z := nth (Z.to_nat d) [0; 95; 135; 175; 215; 255] 0.

(** Index of the cube entry with the given base-6 digits (spec 4.2). *)
Definition cube_index (r_digit g_digit b_digit : Z) : Z :=
  16 + 36 * r_digit + 6 * g_digit + b_digit.

(** The luminance estimate of spec 4.2, over unbounded integers. *)
Definition luminance (r g b : Z) : Z :=
  Z.shiftr (3568058 * r + 11998262 * g + 1210896 * b) 24.

(** The distance formula of spec 4.3, over unbounded integers. *)
Definition distance (x y : Z) : Z :=
  let r_sum := R x + R y in
  let dr := R x - R y in
  let dg := G x - G y in
  let db := B x - B y in
  (1024 + r_sum) * dr ^ 2 + 2048 * dg ^ 2 + (1534 - r_sum) * db ^ 2.

(** A colour with red in the highest of its three bytes. *)
Definition rgb (r g b : Z) : Z := r * 2 ^ 16 + g * 2 ^ 8 + b.

Definition is_rgb24 (c : Z) : Prop := 0 <= c < 2 ^ 24.
Definition is_u8 (v : Z) : Prop := 0 <= v <= 255.

End Spec.

(** * Decision procedures

    Boolean checks that are run over the finitely many indices, channel
    values and cube digits. *)

(** [p] holds of 0, 1, ..., n-1. *)
Fixpoint all_below (n : nat) (p : Z -> bool) : bool :=
  match n with
  | O => true
  | S k => p (Z.of_nat k) && all_below k p
  end.

(** A defined result equal to [v]. *)
Definition option_eqb (o : option Z) (v : Z) : bool :=
  match o with
  | Some w => w =? v
  | None => false
  end.

(** Every entry of the grey table is a palette index outside the system
    colours. *)
Definition grey_entry_ok (i : Z) : bool :=
  match lookup ansi256_from_grey i with
  | Some v => (16 <=? v) && (v <=? 255)
  | None => false
  end.

(** [rgb_from_ansi256 i] is defined and fits 24 bits. *)
Definition rgb_defined (i : Z) : bool :=
  match rgb_from_ansi256 i with
  | Some c => (0 <=? c) && (c <? 2 ^ 24)
  | None => false
  end.

(** The packed candidate built from three cube digits. *)
Definition cube_of_digits (dr dg db : Z) : Z :=
  u32_add (u32_add (IDX_red dr (Spec.cube_level dr))
                   (IDX_green dg (Spec.cube_level dg)))
          (IDX_blue db (Spec.cube_level db)).

(** What holds of the packed candidate for one triple of digits. *)
Record cube_facts (dr dg db : Z) : Prop := {
  cube_top : Z.shiftr (cube_of_digits dr dg db) 24 = Spec.cube_index dr dg db;
  cube_top_range : 16 <= Spec.cube_index dr dg db <= 231;
  cube_low :
    rgb_from_ansi256 (Spec.cube_index dr dg db) =
    Some (Z.land (cube_of_digits dr dg db) 0xffffff);
  cube_levels :
    Z.land (cube_of_digits dr dg db) 0xffffff =
    Spec.rgb (Spec.cube_level dr) (Spec.cube_level dg) (Spec.cube_level db);
  cube_R : R (cube_of_digits dr dg db) = R (Z.land (cube_of_digits dr dg db) 0xffffff);
  cube_G : G (cube_of_digits dr dg db) = G (Z.land (cube_of_digits dr dg db) 0xffffff);
  cube_B : B (cube_of_digits dr dg db) = B (Z.land (cube_of_digits dr dg db) 0xffffff)
}.

(** The same facts, as a check that can be run. *)
Definition cube_facts_b (dr dg db : Z) : bool :=
  let cube := cube_of_digits dr dg db in
  let low := Z.land cube 0xffffff in
  let i := Spec.cube_index dr dg db in
  (Z.shiftr cube 24 =? i) && (16 <=? i) && (i <=? 231) &&
  option_eqb (rgb_from_ansi256 i) low &&
  (low =? Spec.rgb (Spec.cube_level dr) (Spec.cube_level dg) (Spec.cube_level db)) &&
  (R cube =? R low) && (G cube =? G low) && (B cube =? B low).

(** Exact greys: all channels of [pack r r r] are [r], and it takes the
    fast path. *)
Definition grey_path_b (r : Z) : bool :=
  is_grey (pack r r r) && (R (pack r r r) =? r) && (G (pack r r r) =? r) &&
  (B (pack r r r) =? r).

(** Index [i] is answered by entry [i] of the system-colour table. *)
Definition system_region_b (i : Z) : bool :=
  match rgb_from_ansi256 i, lookup system_colours i with
  | Some c, Some s => c =? s
  | _, _ => false
  end.

(** Index [i] is answered by the cube levels at its base-6 digits. *)
Definition cube_region_b (i : Z) : bool :=
  let offset := i - 16 in
  let r := Spec.cube_level (offset / 36) in
  let g := Spec.cube_level ((offset / 6) mod 6) in
  let b := Spec.cube_level (offset mod 6) in
  option_eqb (rgb_from_ansi256 i) (Spec.rgb r g b) &&
  option_eqb (cube_value (offset / 36)) r &&
  option_eqb (cube_value ((offset / 6) mod 6)) g &&
  option_eqb (cube_value (offset mod 6)) b &&
  (R (Spec.rgb r g b) =? r) && (G (Spec.rgb r g b) =? g) &&
  (B (Spec.rgb r g b) =? b).

(** Index [i] is answered by the grey of level [(i-232)*10+8]. *)
Definition grey_ramp_b (i : Z) : bool :=
  let level := (i - 232) * 10 + 8 in
  option_eqb (rgb_from_ansi256 i) (Spec.rgb level level level) &&
  (R (Spec.rgb level level level) =? level) &&
  (G (Spec.rgb level level level) =? level) &&
  (B (Spec.rgb level level level) =? level).

(** The arguments [rgb_from_ansi256] indexes its tables with. *)
Definition table_accesses_b (idx : Z) : bool :=
  if Z.land idx 0xf0 =? 0 then idx <? 16
  else if idx <? 232 then
    let offset := u8 (idx - 16) in
    (u8 (Z.quot offset 36) <? 6) &&
    (u8 (Z.rem (Z.quot offset 6) 6) <? 6) &&
    (u8 (Z.rem offset 6) <? 6)
  else true.

(** * The caller: [examples/convert.c] *)

From Stdlib Require String.

(** What [strtoul (arg, &ptr, 10)] leaves behind: the converted value, the
    text [ptr] points at, and [errno] (which the caller cleared before the
    call).  [strtoul] itself belongs to the C library and is a parameter of
    [parse_u8] and [main]. *)
Record strtoul_result : Type := {
  st_value : Z;
  st_rest : String.string;
  st_errno : Z
}.

(** What the program writes: one constructor for each [printf] and
    [fprintf] call of the source, carrying the arguments of its format.
    The first two go to [stdout], the last two to [stderr]. *)
Inductive output : Type :=
| print_index (idx rgb : Z)
| print_approx (rgb idx approx : Z)
| usage (argv0 : String.string)
| expected_u8 (argv0 arg : String.string).

Definition is_stdout (o : output) : bool :=
  match o with
  | print_index _ _ | print_approx _ _ _ => true
  | usage _ | expected_u8 _ _ => false
  end.

(** [*ptr == 0]: nothing is left of the argument. *)
Definition at_end (s : String.string) : bool :=
  match s with
  | String.EmptyString => true
  | String.String _ _ => false
  end.

(** The test [value <= 255 && !errno && *ptr == 0]. *)
Definition accepted (res : strtoul_result) : bool :=
  (st_value res <=? 255) && (st_errno res =? 0) && at_end (st_rest res).

(** [parse_u8]: the [unsigned long] value, or [-1], converted to the
    [uint32_t] result; and what was written to [stderr]. *)
Definition parse_u8 (strtoul : String.string -> strtoul_result)
    (argv0 arg : String.string) : Z * list output :=
  let res := strtoul arg in
  if accepted res then (u32 (st_value res), [])
  else (u32 (-1), [expected_u8 argv0 arg]).

(** [main]: the exit status and everything written, in order.  [argc] is
    the length of [argv]; reading [argv[0]] of an empty [argv] has no
    defined result. *)
Definition main (strtoul : String.string -> strtoul_result)
    (argv : list String.string) : option (Z * list output) :=
  let argc := Z.of_nat (length argv) in
  if argc =? 2 then
    argv0 <- lookup argv 0 ;;
    arg1 <- lookup argv 1 ;;
    let (idx, out) := parse_u8 strtoul argv0 arg1 in
    if idx =? u32 (-1) then Some (1, out)
    else
      rgb <- rgb_from_ansi256 (u8 idx) ;;
      Some (0, out ++ [print_index idx rgb])
  else if argc =? 4 then
    argv0 <- lookup argv 0 ;;
    arg1 <- lookup argv 1 ;;
    arg2 <- lookup argv 2 ;;
    arg3 <- lookup argv 3 ;;
    let (r, out_r) := parse_u8 strtoul argv0 arg1 in
    if r =? u32 (-1) then Some (1, out_r)
    else
      let (g, out_g) := parse_u8 strtoul argv0 arg2 in
      if g =? u32 (-1) then Some (1, out_r ++ out_g)
      else
        let (b, out_b) := parse_u8 strtoul argv0 arg3 in
        if b =? u32 (-1) then Some (1, out_r ++ out_g ++ out_b)
        else
          let rgb := Z.lor (Z.lor (u32_shl r 16) (u32_shl g 8)) b in
          idx <- ansi256_from_rgb rgb ;;
          approx <- rgb_from_ansi256 idx ;;
          Some (0, out_r ++ out_g ++ out_b ++ [print_approx rgb idx approx])
  else
    argv0 <- lookup argv 0 ;;
    Some (1, [usage argv0]).

(** A stand-in for [strtoul] on which [main] can be run: it reads leading
    decimal digits and nothing else, and reports a value that does not fit
    64 bits as the largest one with [errno] set to [ERANGE] (34). *)
Fixpoint read_digits (acc : Z) (s : String.string) : Z * String.string :=
  match s with
  | String.EmptyString => (acc, s)
  | String.String c s' =>
      let n := Z.of_N (Ascii.N_of_ascii c) - 48 in
      if (0 <=? n) && (n <=? 9) then read_digits (acc * 10 + n) s'
      else (acc, s)
  end.

Definition sample_strtoul (s : String.string) : strtoul_result :=
  let (v, r) := read_digits 0 s in
  if v <? 2 ^ 64
  then {| st_value := v; st_rest := r; st_errno := 0 |}
  else {| st_value := 2 ^ 64 - 1; st_rest := r; st_errno := 34 |}.

(** * More decision procedures *)

(** [ansi256_from_rgb] undoes [rgb_from_ansi256] at index [i]. *)
Definition round_trip_b (i : Z) : bool :=
  match rgb_from_ansi256 i with
  | Some c => option_eqb (ansi256_from_rgb c) i
  | None => false
  end.

(** The cube candidate of the colour of cube index [i] is that very entry:
    the index in the top byte, the colour below. *)
Definition cube_exact_b (i : Z) : bool :=
  match rgb_from_ansi256 i with
  | Some c =>
      (cube_candidate c =? i * 2 ^ 24 + c) &&
      option_eqb (distance c (cube_candidate c)) 0
  | None => false
  end.

(** The level the three quantisers store for channel value [v] is within
    57, 59 and 60 of [v]. *)
Definition quantiser_error_b (v : Z) : bool :=
  (Z.abs (R (cube_index_red v) - v) <=? 57) &&
  (Z.abs (G (cube_index_green v) - v) <=? 59) &&
  (Z.abs (B (cube_index_blue v) - v) <=? 60).

(** The colour the grey [r] is approximated by; [None] if anything on the
    way is undefined. *)
Definition grey_approximation (r : Z) : option Z :=
  i <- ansi256_from_rgb (pack r r r) ;;
  rgb_from_ansi256 i.

Definition grey_level (r : Z) : Z :=
  match grey_approximation r with
  | Some c => B c
  | None => -1
  end.

(** The approximation of grey [r] is a grey within 8 of [r], and not
    brighter than that of [r + 1]. *)
Definition grey_approximation_b (r : Z) : bool :=
  match grey_approximation r with
  | Some c =>
      (R c =? G c) && (G c =? B c) && (Z.abs (B c - r) <=? 8) &&
      ((r =? 255) || (B c <=? grey_level (r + 1)))
  | None => false
  end.

(** The test [!(index & 0xf0)] against [index < 16]. *)
Definition system_test_b (i : Z) : bool :=
  Bool.eqb (Z.land i 0xf0 =? 0) (i <? 16).

(** * Checking a predicate on an initial segment of the integers *)

Lemma all_below_sound (n : nat) (p : Z -> bool) :
  all_below n p = true -> forall i, 0 <= i < Z.of_nat n -> p i = true.
Proof.
  induction n as [|k IH]; intros Hall i Hi.
  - simpl in Hi. lia.
  - simpl in Hall. apply andb_true_iff in Hall as [Hk Hrest].
    destruct (Z.eq_dec i (Z.of_nat k)) as [->|Hne]; [exact Hk|].
    apply IH; [exact Hrest | lia].
Qed.

(** * Machine-integer facts *)

Lemma land_255_range (a : Z) : 0 <= Z.land a 0xff <= 255.
Proof.
  assert (Hmod : Z.land a 0xff = a mod 256)
    by exact (Z.land_ones a 8 ltac:(lia)).
  rewrite Hmod. pose proof (Z.mod_pos_bound a 256). lia.
Qed.

Lemma R_range (c : Z) : 0 <= R c <= 255.
Proof. apply land_255_range. Qed.

Lemma G_range (c : Z) : 0 <= G c <= 255.
Proof. apply land_255_range. Qed.

Lemma B_range (c : Z) : 0 <= B c <= 255.
Proof. apply land_255_range. Qed.

Lemma u8_small (v : Z) : 0 <= v <= 255 -> u8 v = v.
Proof. intros H. unfold u8. change (2 ^ 8) with 256. apply Z.mod_small. lia. Qed.

Lemma u32_small (v : Z) : 0 <= v < 4294967296 -> u32 v = v.
Proof. intros H. unfold u32. apply Z.mod_small. exact H. Qed.

Lemma int32_in_range (v : Z) :
  int32_min <= v <= int32_max -> int32 v = Some v.
Proof.
  intros [Hlo Hhi]. unfold int32, in_int32.
  apply Z.leb_le in Hlo, Hhi. rewrite Hlo, Hhi. reflexivity.
Qed.

(** * The distance heuristic *)

Ltac int32_bounds :=
  change int32_min with (-2147483648) in *;
  change int32_max with 2147483647 in *.

(** Discharge the next [int32] check in a chain of binds. *)
Ltac int32_step :=
  match goal with
  | |- context [bind (int32 ?v) _] =>
      rewrite (int32_in_range v) by (int32_bounds; lia); cbn [bind]
  end.

(** One weighted term [w * d * d] of the distance, as C evaluates it. *)
Lemma weighted_square_range (w d : Z) :
  0 <= w <= 2048 -> -255 <= d <= 255 ->
  -522240 <= w * d <= 522240 /\ 0 <= w * d * d <= 133171200.
Proof.
  intros Hw Hd.
  assert (H1 : -522240 <= w * d <= 522240) by nia.
  assert (H2 : 0 <= d * d <= 65025) by nia.
  split; [exact H1|].
  rewrite <- Z.mul_assoc. revert H2. generalize (d * d). intros q Hq. nia.
Qed.

Section Distance.

Variables x y : Z.

(** No step of [distance] leaves [int32_t], and its value is the
    specification's formula. *)
Lemma distance_exact :
  distance x y = Some (Spec.distance x y) /\
  0 <= Spec.distance x y <= int32_max.
Proof.
  unfold distance, Spec.distance, u32_add, int32_add, int32_sub, int32_mul.
  pose proof (R_range x) as Hrx. pose proof (R_range y) as Hry.
  pose proof (G_range x) as Hgx. pose proof (G_range y) as Hgy.
  pose proof (B_range x) as Hbx. pose proof (B_range y) as Hby.
  revert Hrx Hry Hgx Hgy Hbx Hby.
  generalize (R x) (R y) (G x) (G y) (B x) (B y).
  intros rx ry gx gy bx by_ Hrx Hry Hgx Hgy Hbx Hby.
  rewrite (u32_small (rx + ry)) by lia.
  rewrite !Z.pow_2_r, !Z.mul_assoc.
  destruct (weighted_square_range (1024 + (rx + ry)) (rx - ry)) as [Hr1 Hr2];
    [lia | lia |].
  destruct (weighted_square_range 2048 (gx - gy)) as [Hg1 Hg2];
    [lia | lia |].
  destruct (weighted_square_range (1534 - (rx + ry)) (bx - by_)) as [Hb1 Hb2];
    [lia | lia |].
  repeat int32_step.
  rewrite u32_small by lia.
  split; [reflexivity | int32_bounds; lia].
Qed.

End Distance.

(** [distance] reads its arguments through [R], [G] and [B] only. *)
Lemma distance_channels (x y y' : Z) :
  R y = R y' -> G y = G y' -> B y = B y' -> distance x y = distance x y'.
Proof. unfold distance. intros -> -> ->. reflexivity. Qed.

(** * The luminance estimate *)

Lemma luminance_exact (rgb : Z) :
  luminance rgb = Spec.luminance (R rgb) (G rgb) (B rgb) /\
  0 <= luminance rgb <= 255.
Proof.
  unfold luminance, Spec.luminance, u32_add, u32_mul.
  pose proof (R_range rgb) as Hr. pose proof (G_range rgb) as Hg.
  pose proof (B_range rgb) as Hb. revert Hr Hg Hb.
  generalize (R rgb) (G rgb) (B rgb). intros r g b Hr Hg Hb.
  rewrite (u32_small (3568058 * r)) by lia.
  rewrite (u32_small (11998262 * g)) by lia.
  rewrite (u32_small (1210896 * b)) by lia.
  rewrite (u32_small (3568058 * r + 11998262 * g)) by lia.
  rewrite (u32_small (3568058 * r + 11998262 * g + 1210896 * b)) by lia.
  rewrite Z.shiftr_div_pow2 by lia. change (2 ^ 24) with 16777216.
  assert (Hq : 0 <= (3568058 * r + 11998262 * g + 1210896 * b) / 16777216 <= 255).
  { split.
    - apply Z.div_pos; lia.
    - apply Z.div_le_upper_bound; lia. }
  rewrite u8_small by exact Hq. split; [reflexivity | exact Hq].
Qed.

(** * The constant tables *)

Lemma lookup_in_bounds {A : Type} (tbl : list A) (i : Z) :
  0 <= i < Z.of_nat (length tbl) -> exists v, lookup tbl i = Some v.
Proof.
  intros Hi. unfold lookup.
  destruct (Z.ltb_spec i 0) as [Hneg|_]; [lia|].
  destruct (nth_error tbl (Z.to_nat i)) as [v|] eqn:Hnth.
  - exists v. reflexivity.
  - apply nth_error_None in Hnth. lia.
Qed.

Lemma lookup_out_of_bounds {A : Type} (tbl : list A) (i : Z) :
  i < 0 \/ Z.of_nat (length tbl) <= i -> lookup tbl i = None.
Proof.
  intros Hi. unfold lookup.
  destruct (Z.ltb_spec i 0) as [Hneg|Hpos]; [reflexivity|].
  apply nth_error_None. lia.
Qed.

(** A read is defined exactly inside the table. *)
Lemma lookup_defined_iff {A : Type} (tbl : list A) (i : Z) :
  (exists v, lookup tbl i = Some v) <-> 0 <= i < Z.of_nat (length tbl).
Proof.
  split.
  - intros [v Hv].
    destruct (Z_lt_dec i 0) as [Hneg|Hpos];
      [rewrite lookup_out_of_bounds in Hv by lia; discriminate|].
    destruct (Z_le_dec (Z.of_nat (length tbl)) i) as [Hbig|Hsmall];
      [rewrite lookup_out_of_bounds in Hv by lia; discriminate|].
    lia.
  - apply lookup_in_bounds.
Qed.

Lemma ansi256_from_grey_entries (i : Z) :
  0 <= i <= 255 ->
  exists v, lookup ansi256_from_grey i = Some v /\ 16 <= v <= 255.
Proof.
  intros Hi.
  assert (Hall : all_below 256 grey_entry_ok = true) by (vm_compute; reflexivity).
  pose proof (all_below_sound 256 grey_entry_ok Hall i ltac:(lia)) as Hok.
  unfold grey_entry_ok in Hok.
  destruct (lookup ansi256_from_grey i) as [v|]; [|discriminate].
  apply andb_true_iff in Hok as [Hlo Hhi].
  apply Z.leb_le in Hlo, Hhi. exists v. split; [reflexivity | lia].
Qed.

(** * [rgb_from_ansi256] on its three regions *)

Lemma rgb_from_ansi256_defined (i : Z) :
  0 <= i <= 255 ->
  exists c, rgb_from_ansi256 i = Some c /\ 0 <= c < 2 ^ 24.
Proof.
  intros Hi.
  assert (Hall : all_below 256 rgb_defined = true) by (vm_compute; reflexivity).
  pose proof (all_below_sound 256 rgb_defined Hall i ltac:(lia)) as Hok.
  unfold rgb_defined in Hok.
  destruct (rgb_from_ansi256 i) as [c|]; [|discriminate].
  apply andb_true_iff in Hok as [Hlo Hhi].
  apply Z.leb_le in Hlo. apply Z.ltb_lt in Hhi.
  exists c. split; [reflexivity | split; assumption].
Qed.

(** * The channel quantiser and the packed cube candidate *)

Lemma quantize_range (ts : list Z) (v : Z) :
  0 <= Spec.quantize ts v <= Z.of_nat (length ts).
Proof.
  induction ts as [|t rest IH].
  - simpl. lia.
  - cbn [Spec.quantize length]. destruct (v <? t); lia.
Qed.

Section CubeThresholds.

Variable IDX : Z -> Z -> Z.
Variables a b c d e : Z.

(** An expansion of [CUBE_THRESHOLDS] applies the [IDX] in force to the
    bucket of [v] and to that bucket's cube level. *)
Lemma CUBE_THRESHOLDS_quantize (v : Z) :
  CUBE_THRESHOLDS IDX a b c d e v =
  IDX (Spec.quantize [a; b; c; d; e] v)
      (Spec.cube_level (Spec.quantize [a; b; c; d; e] v)).
Proof.
  unfold CUBE_THRESHOLDS. cbn [Spec.quantize].
  destruct (v <? a); [reflexivity|].
  destruct (v <? b); [reflexivity|].
  destruct (v <? c); [reflexivity|].
  destruct (v <? d); [reflexivity|].
  destruct (v <? e); reflexivity.
Qed.

End CubeThresholds.

Lemma cube_candidate_digits (rgb : Z) :
  cube_candidate rgb =
  cube_of_digits (Spec.red_digit (R rgb)) (Spec.green_digit (G rgb))
                 (Spec.blue_digit (B rgb)).
Proof.
  unfold cube_candidate, cube_of_digits.
  rewrite (u8_small (R rgb)) by apply R_range.
  rewrite (u8_small (G rgb)) by apply G_range.
  rewrite (u8_small (B rgb)) by apply B_range.
  unfold cube_index_red, cube_index_green, cube_index_blue.
  rewrite !CUBE_THRESHOLDS_quantize. reflexivity.
Qed.

Lemma digit_ranges (rgb : Z) :
  0 <= Spec.red_digit (R rgb) < 6 /\
  0 <= Spec.green_digit (G rgb) < 6 /\
  0 <= Spec.blue_digit (B rgb) < 6.
Proof.
  pose proof (quantize_range Spec.red_thresholds (R rgb)) as Hr.
  pose proof (quantize_range Spec.green_thresholds (G rgb)) as Hg.
  pose proof (quantize_range Spec.blue_thresholds (B rgb)) as Hb.
  unfold Spec.red_digit, Spec.green_digit, Spec.blue_digit.
  simpl length in *. lia.
Qed.

Lemma option_eqb_eq (o : option Z) (v : Z) : option_eqb o v = true -> o = Some v.
Proof.
  destruct o as [w|]; simpl; [|discriminate].
  intros H. apply Z.eqb_eq in H. congruence.
Qed.

Lemma cube_facts_all (dr dg db : Z) :
  0 <= dr < 6 -> 0 <= dg < 6 -> 0 <= db < 6 -> cube_facts dr dg db.
Proof.
  intros Hr Hg Hb.
  assert (Hall : all_below 6 (fun r => all_below 6 (fun g =>
                   all_below 6 (fun b => cube_facts_b r g b))) = true)
    by (vm_compute; reflexivity).
  pose proof (all_below_sound 6 _ Hall dr ltac:(lia)) as Hall_r.
  pose proof (all_below_sound 6 _ Hall_r dg ltac:(lia)) as Hall_g.
  pose proof (all_below_sound 6 _ Hall_g db ltac:(lia)) as Hok.
  unfold cube_facts_b in Hok. cbv zeta in Hok.
  repeat (apply andb_true_iff in Hok; destruct Hok as [Hok ?]).
  constructor;
    try (apply Z.eqb_eq; assumption);
    try (apply option_eqb_eq; assumption).
  split; [apply Z.leb_le | apply Z.leb_le]; assumption.
Qed.

(** * The two paths of [ansi256_from_rgb] *)

Lemma is_grey_false (rgb : Z) :
  ~ (R rgb = G rgb /\ G rgb = B rgb) -> is_grey rgb = false.
Proof.
  intros Hne. unfold is_grey.
  destruct (Z.eqb_spec (R rgb) (G rgb)) as [Hrg|Hrg]; [|reflexivity].
  destruct (Z.eqb_spec (G rgb) (B rgb)) as [Hgb|Hgb]; [|reflexivity].
  exfalso. apply Hne. split; assumption.
Qed.

Lemma ansi256_from_rgb_grey (rgb : Z) :
  is_grey rgb = true ->
  ansi256_from_rgb rgb = lookup ansi256_from_grey (B rgb).
Proof. intros Hg. unfold ansi256_from_rgb. rewrite Hg. reflexivity. Qed.

(** On the non-grey path every lookup is in bounds, both distances are
    defined, and the result is the closer of the two candidates. *)
Lemma ansi256_from_rgb_non_grey (rgb : Z) :
  is_grey rgb = false ->
  exists grey_idx grey_rgb cube_rgb,
    lookup ansi256_from_grey (Spec.luminance (R rgb) (G rgb) (B rgb)) = Some grey_idx /\
    16 <= grey_idx <= 255 /\
    rgb_from_ansi256 grey_idx = Some grey_rgb /\
    rgb_from_ansi256
      (Spec.cube_index (Spec.red_digit (R rgb)) (Spec.green_digit (G rgb))
                       (Spec.blue_digit (B rgb))) = Some cube_rgb /\
    ansi256_from_rgb rgb =
    Some (if Spec.distance rgb cube_rgb <? Spec.distance rgb grey_rgb
          then Spec.cube_index (Spec.red_digit (R rgb)) (Spec.green_digit (G rgb))
                               (Spec.blue_digit (B rgb))
          else grey_idx).
Proof.
  intros Hng.
  destruct (luminance_exact rgb) as [Hlum Hlum_range].
  destruct (ansi256_from_grey_entries (luminance rgb) Hlum_range)
    as (grey_idx & Hgrey & Hgrey_range).
  destruct (rgb_from_ansi256_defined grey_idx ltac:(lia)) as (grey_rgb & Hgrgb & _).
  destruct (digit_ranges rgb) as (Hdr & Hdg & Hdb).
  destruct (cube_facts_all _ _ _ Hdr Hdg Hdb)
    as [Htop Htop_range Hlow _ HR HG HB].
  rewrite <- cube_candidate_digits in Htop, Hlow, HR, HG, HB.
  set (cube := cube_candidate rgb) in *.
  set (cube_idx := Spec.cube_index _ _ _) in *.
  exists grey_idx, grey_rgb, (Z.land cube 0xffffff).
  rewrite <- Hlum.
  repeat split; try assumption; try lia.
  unfold ansi256_from_rgb. rewrite Hng, Hgrey. cbn [bind].
  rewrite Hgrgb. cbn [bind]. fold cube.
  rewrite (distance_channels rgb cube (Z.land cube 0xffffff) HR HG HB).
  rewrite (proj1 (distance_exact rgb grey_rgb)),
          (proj1 (distance_exact rgb (Z.land cube 0xffffff))).
  cbn [bind]. rewrite Htop. f_equal.
  destruct (_ <? _); apply u8_small; lia.
Qed.

(** * Reverse conversion: [ansi256_from_rgb] *)

(** C1.  For a 24-bit colour whose three channels are not all equal,
    [ansi256_from_rgb] looks the grey candidate up in the grey table at the
    luminance [(3568058*R + 11998262*G + 1210896*B) >> 24], takes the cube
    candidate [16 + 36*r_digit + 6*g_digit + b_digit] from the per-channel
    threshold quantisation, and returns the cube candidate's index when its
    reconstructed colour is strictly closer to the input than the grey
    candidate's, and the grey candidate's index otherwise, ties included.
    The two candidates can be one and the same palette index, and then that
    index is returned whatever the distances: the result is the cube
    candidate's index exactly when the cube distance is strictly smaller or
    the two candidates have the same index. *)
Theorem ansi256_from_rgb_picks_closer_candidate (rgb : Z) :
  Spec.is_rgb24 rgb ->
  ~ (R rgb = G rgb /\ G rgb = B rgb) ->
  exists grey_idx grey_rgb cube_rgb grey_distance cube_distance,
    let cube_idx :=
      Spec.cube_index (Spec.red_digit (R rgb)) (Spec.green_digit (G rgb))
                      (Spec.blue_digit (B rgb)) in
    lookup ansi256_from_grey (Spec.luminance (R rgb) (G rgb) (B rgb)) = Some grey_idx /\
    rgb_from_ansi256 grey_idx = Some grey_rgb /\
    rgb_from_ansi256 cube_idx = Some cube_rgb /\
    distance rgb grey_rgb = Some grey_distance /\
    distance rgb cube_rgb = Some cube_distance /\
    ansi256_from_rgb rgb =
      Some (if cube_distance <? grey_distance then cube_idx else grey_idx) /\
    (cube_distance < grey_distance -> ansi256_from_rgb rgb = Some cube_idx) /\
    (grey_distance <= cube_distance -> ansi256_from_rgb rgb = Some grey_idx) /\
    (cube_idx <> grey_idx ->
     (ansi256_from_rgb rgb = Some cube_idx <-> cube_distance < grey_distance)) /\
    (ansi256_from_rgb rgb = Some cube_idx <->
     cube_distance < grey_distance \/ cube_idx = grey_idx).
Proof.
  intros _ Hne.
  destruct (ansi256_from_rgb_non_grey rgb (is_grey_false rgb Hne))
    as (grey_idx & grey_rgb & cube_rgb & Hgrey & _ & Hgrgb & Hcrgb & Hres).
  exists grey_idx, grey_rgb, cube_rgb,
    (Spec.distance rgb grey_rgb), (Spec.distance rgb cube_rgb).
  cbv zeta.
  set (cube_idx := Spec.cube_index _ _ _) in *.
  set (gd := Spec.distance rgb grey_rgb) in *.
  set (cd := Spec.distance rgb cube_rgb) in *.
  repeat (split; [first [assumption | apply distance_exact]|]).
  rewrite Hres. destruct (Z.ltb_spec cd gd) as [Hlt|Hge].
  - repeat split; intros; try reflexivity; try lia.
  - split; [intros Hlt; lia|]. split; [reflexivity|].
    split.
    + intros Hdiff. split; [intros Hsame; congruence | intros Hlt; lia].
    + split.
      * intros Hsame. right. congruence.
      * intros [Hlt|Hsame]; [lia | congruence].
Qed.

Lemma ansi256_from_rgb_picks_closer_candidate_witness :
  Spec.is_rgb24 0xff0000 /\
  ~ (R 0xff0000 = G 0xff0000 /\ G 0xff0000 = B 0xff0000) /\
  exists grey_idx cube_distance grey_distance : Z,
    ansi256_from_rgb 0xff0000 =
    Some (if cube_distance <? grey_distance then 196 else grey_idx).
Proof.
  assert (Hrange : Spec.is_rgb24 0xff0000) by (unfold Spec.is_rgb24; lia).
  assert (Hne : ~ (R 0xff0000 = G 0xff0000 /\ G 0xff0000 = B 0xff0000))
    by (vm_compute; intros [H _]; discriminate H).
  split; [exact Hrange|]. split; [exact Hne|].
  destruct (ansi256_from_rgb_picks_closer_candidate 0xff0000 Hrange Hne)
    as (grey_idx & _ & _ & gd & cd & _ & _ & _ & _ & _ & Hres & _).
  exists grey_idx, cd, gd. exact Hres.
Defined.

(** C1 as first stated, with the result being the cube candidate's index
    exactly when the cube distance is strictly smaller, fails where the two
    candidates coincide.  0x5f5f60 is not a grey; its luminance is 95, whose
    grey-table entry is 59; its cube digits are (1,1,1), index 59; both
    candidates have colour 0x5f5f5f at distance 1344; and the result 59 is
    the cube candidate's index although 1344 is not below 1344. *)
Lemma closer_candidate_iff_fails_at_5f5f60 :
  (Spec.is_rgb24 0x5f5f60 /\
   ~ (R 0x5f5f60 = G 0x5f5f60 /\ G 0x5f5f60 = B 0x5f5f60) /\
   lookup ansi256_from_grey
     (Spec.luminance (R 0x5f5f60) (G 0x5f5f60) (B 0x5f5f60)) = Some 59 /\
   Spec.cube_index (Spec.red_digit (R 0x5f5f60)) (Spec.green_digit (G 0x5f5f60))
                   (Spec.blue_digit (B 0x5f5f60)) = 59 /\
   rgb_from_ansi256 59 = Some 0x5f5f5f /\
   distance 0x5f5f60 0x5f5f5f = Some 1344 /\
   ansi256_from_rgb 0x5f5f60 = Some 59 /\
   ~ 1344 < 1344) /\
  ~ (forall rgb grey_idx grey_rgb cube_rgb grey_distance cube_distance,
       Spec.is_rgb24 rgb ->
       ~ (R rgb = G rgb /\ G rgb = B rgb) ->
       lookup ansi256_from_grey (Spec.luminance (R rgb) (G rgb) (B rgb)) =
         Some grey_idx ->
       rgb_from_ansi256 grey_idx = Some grey_rgb ->
       rgb_from_ansi256
         (Spec.cube_index (Spec.red_digit (R rgb)) (Spec.green_digit (G rgb))
                          (Spec.blue_digit (B rgb))) = Some cube_rgb ->
       distance rgb grey_rgb = Some grey_distance ->
       distance rgb cube_rgb = Some cube_distance ->
       (ansi256_from_rgb rgb =
          Some (Spec.cube_index (Spec.red_digit (R rgb)) (Spec.green_digit (G rgb))
                                (Spec.blue_digit (B rgb))) <->
        cube_distance < grey_distance)).
Proof.
  assert (Hrange : Spec.is_rgb24 0x5f5f60) by (unfold Spec.is_rgb24; lia).
  assert (Hne : ~ (R 0x5f5f60 = G 0x5f5f60 /\ G 0x5f5f60 = B 0x5f5f60))
    by (vm_compute; intros [_ H]; discriminate H).
  split.
  - split; [exact Hrange|]. split; [exact Hne|].
    repeat split; try (vm_compute; reflexivity). lia.
  - intros Hclaim.
    assert (Hiff := Hclaim 0x5f5f60 59 0x5f5f5f 0x5f5f5f 1344 1344 Hrange Hne).
    destruct Hiff as [Hlt _]; try (vm_compute; reflexivity).
    assert (H1344 : 1344 < 1344) by (apply Hlt; vm_compute; reflexivity).
    lia.
Qed.

(** The two candidates may be one and the same palette entry: for
    0x5f5f60 the luminance is 95, whose grey-table entry is the cube grey 59,
    and the cube candidate is 59 too. *)
Example candidates_may_coincide :
  lookup ansi256_from_grey (luminance 0x5f5f60) = Some 59 /\
  Z.shiftr (cube_candidate 0x5f5f60) 24 = 59 /\
  ansi256_from_rgb 0x5f5f60 = Some 59.
Proof. repeat split; vm_compute; reflexivity. Qed.

(** C9.  The packed cube candidate is self-consistent: its top byte is a
    cube index in [16,231], its low 24 bits are [rgb_from_ansi256] of that
    index, and [distance] sees only those low bits, so the comparison in
    [ansi256_from_rgb] measures the distance to the reconstructed colour. *)
Theorem cube_candidate_self_consistent (rgb : Z) :
  Spec.is_rgb24 rgb ->
  let cube := cube_candidate rgb in
  16 <= Z.shiftr cube 24 <= 231 /\
  u8 (Z.shiftr cube 24) = Z.shiftr cube 24 /\
  rgb_from_ansi256 (Z.shiftr cube 24) = Some (Z.land cube 0xffffff) /\
  R cube = R (Z.land cube 0xffffff) /\
  G cube = G (Z.land cube 0xffffff) /\
  B cube = B (Z.land cube 0xffffff) /\
  distance rgb cube = distance rgb (Z.land cube 0xffffff).
Proof.
  intros _ cube. subst cube.
  destruct (digit_ranges rgb) as (Hdr & Hdg & Hdb).
  destruct (cube_facts_all _ _ _ Hdr Hdg Hdb)
    as [Htop Htop_range Hlow _ HR HG HB].
  rewrite <- cube_candidate_digits in Htop, Hlow, HR, HG, HB.
  rewrite Htop.
  repeat split; try assumption; try lia.
  - apply u8_small. lia.
  - apply distance_channels; assumption.
Qed.

Lemma cube_candidate_self_consistent_witness :
  Spec.is_rgb24 0x123456 /\
  rgb_from_ansi256 (Z.shiftr (cube_candidate 0x123456) 24) =
  Some (Z.land (cube_candidate 0x123456) 0xffffff).
Proof.
  assert (Hrange : Spec.is_rgb24 0x123456) by (unfold Spec.is_rgb24; lia).
  split; [exact Hrange|].
  apply (cube_candidate_self_consistent 0x123456 Hrange).
Defined.

Lemma grey_path (r : Z) :
  0 <= r <= 255 ->
  is_grey (pack r r r) = true /\
  R (pack r r r) = r /\ G (pack r r r) = r /\ B (pack r r r) = r.
Proof.
  intros Hr.
  assert (Hall : all_below 256 grey_path_b = true) by (vm_compute; reflexivity).
  pose proof (all_below_sound 256 grey_path_b Hall r ltac:(lia)) as Hok.
  unfold grey_path_b in Hok.
  apply andb_true_iff in Hok as [Hok Hblue].
  apply andb_true_iff in Hok as [Hok Hgreen].
  apply andb_true_iff in Hok as [Hgrey Hred].
  repeat split; try (apply Z.eqb_eq; assumption). exact Hgrey.
Qed.

(** C2.  For every channel value [r] in [0,255] the grey colour with all
    channels [r] is answered by entry [r] of the grey table, which exists;
    the fast-path test succeeds, so whatever stands in the other branch
    (luminance, cube quantisation, distance comparison) is not consulted. *)
Theorem ansi256_from_rgb_exact_grey (r : Z) :
  Spec.is_u8 r ->
  (R (pack r r r) = r /\ G (pack r r r) = r /\ B (pack r r r) = r) /\
  is_grey (pack r r r) = true /\
  ansi256_from_rgb (pack r r r) = lookup ansi256_from_grey r /\
  (exists v, lookup ansi256_from_grey r = Some v) /\
  (forall non_grey_path : option Z,
     (if is_grey (pack r r r)
      then lookup ansi256_from_grey (Z.land (pack r r r) 0xff)
      else non_grey_path) = lookup ansi256_from_grey r).
Proof.
  intros Hr. destruct (grey_path r Hr) as (Hgrey & Hred & Hgreen & Hlow).
  destruct (ansi256_from_grey_entries r Hr) as (v & Hv & _).
  split; [repeat split; assumption|].
  split; [exact Hgrey|]. split; [|split].
  - rewrite (ansi256_from_rgb_grey _ Hgrey), Hlow. reflexivity.
  - exists v. exact Hv.
  - intros other. rewrite Hgrey. fold (B (pack r r r)). rewrite Hlow. reflexivity.
Qed.

Lemma ansi256_from_rgb_exact_grey_witness :
  Spec.is_u8 127 /\
  ansi256_from_rgb (pack 127 127 127) = lookup ansi256_from_grey 127.
Proof.
  assert (Hr : Spec.is_u8 127) by (unfold Spec.is_u8; lia).
  split; [exact Hr|].
  apply (ansi256_from_rgb_exact_grey 127 Hr).
Defined.

(** C7.  The reverse conversion sends pure red, black and white back to
    the palette indices 196, 16 and 231; pure red is not a grey, so it goes
    through luminance lookup, cube quantisation and distance comparison. *)
Theorem ansi256_from_rgb_corners :
  ansi256_from_rgb 0xff0000 = Some 196 /\
  ansi256_from_rgb 0x000000 = Some 16 /\
  ansi256_from_rgb 0xffffff = Some 231 /\
  is_grey 0xff0000 = false /\
  rgb_from_ansi256 196 = Some 0xff0000 /\
  rgb_from_ansi256 16 = Some 0x000000 /\
  rgb_from_ansi256 231 = Some 0xffffff.
Proof. repeat split; vm_compute; reflexivity. Qed.

(** C10.  [ansi256_from_rgb] never answers with a system colour: every
    entry of the grey table is at least 16, the cube candidate lies in
    [16,231], and so does every result; 0x7f7f7f, which is exactly system
    colour 8, is sent to 244. *)
Theorem ansi256_from_rgb_never_system_colour (rgb : Z) :
  Spec.is_rgb24 rgb ->
  (exists i, ansi256_from_rgb rgb = Some i /\ 16 <= i <= 255) /\
  Forall (fun v => 16 <= v) ansi256_from_grey /\
  16 <= Z.shiftr (cube_candidate rgb) 24 <= 231 /\
  rgb_from_ansi256 8 = Some 0x7f7f7f /\
  ansi256_from_rgb 0x7f7f7f = Some 244.
Proof.
  intros _. split; [|split; [|split; [|split]]].
  - destruct (is_grey rgb) eqn:Hgrey.
    + rewrite (ansi256_from_rgb_grey rgb Hgrey).
      apply ansi256_from_grey_entries, B_range.
    + destruct (ansi256_from_rgb_non_grey rgb Hgrey)
        as (grey_idx & grey_rgb & cube_rgb & _ & Hrange & _ & _ & Hres).
      destruct (digit_ranges rgb) as (Hdr & Hdg & Hdb).
      pose proof (cube_top_range _ _ _ (cube_facts_all _ _ _ Hdr Hdg Hdb)) as Hcube.
      rewrite Hres. eexists. split; [reflexivity|].
      destruct (_ <? _); lia.
  - apply Forall_forall. intros v Hin.
    apply (In_nth_error ansi256_from_grey v) in Hin as [n Hn].
    assert (Hlen : (n < length ansi256_from_grey)%nat)
      by (apply nth_error_Some; congruence).
    change (length ansi256_from_grey) with 256%nat in Hlen.
    destruct (ansi256_from_grey_entries (Z.of_nat n) ltac:(lia)) as (w & Hw & Hrange).
    unfold lookup in Hw.
    destruct (Z.ltb_spec (Z.of_nat n) 0) as [Hneg|_]; [lia|].
    rewrite Nat2Z.id in Hw. assert (Hvw : v = w) by congruence. lia.
  - destruct (digit_ranges rgb) as (Hdr & Hdg & Hdb).
    destruct (cube_facts_all _ _ _ Hdr Hdg Hdb) as [Htop Htop_range _ _ _ _ _].
    rewrite <- cube_candidate_digits in Htop. rewrite Htop. exact Htop_range.
  - vm_compute. reflexivity.
  - vm_compute. reflexivity.
Qed.

Lemma ansi256_from_rgb_never_system_colour_witness :
  Spec.is_rgb24 0xce0000 /\
  exists i, ansi256_from_rgb 0xce0000 = Some i /\ 16 <= i <= 255.
Proof.
  assert (Hrange : Spec.is_rgb24 0xce0000) by (unfold Spec.is_rgb24; lia).
  split; [exact Hrange|].
  apply (ansi256_from_rgb_never_system_colour 0xce0000 Hrange).
Defined.

(** * Forward conversion: [rgb_from_ansi256] *)

Lemma all_between_sound (lo : Z) (n : nat) (p : Z -> bool) :
  0 <= lo ->
  all_below n (fun i => (i <? lo) || p i) = true ->
  forall i, lo <= i < Z.of_nat n -> p i = true.
Proof.
  intros Hlo Hall i Hi.
  pose proof (all_below_sound n _ Hall i) as Hok. cbv beta in Hok.
  destruct (Z.ltb_spec i lo) as [Hlt|_]; [lia|].
  apply Hok. lia.
Qed.

(** C5.  On [0,15] [rgb_from_ansi256] returns the entry of the 16-entry
    system-colour table; in particular indices 0, 7 and 15 give 0x000000,
    0xefefef and 0xffffff. *)
Theorem rgb_from_ansi256_system_colours (idx : Z) :
  0 <= idx <= 15 ->
  (exists c, lookup system_colours idx = Some c /\ rgb_from_ansi256 idx = Some c) /\
  length system_colours = 16%nat /\
  rgb_from_ansi256 0 = Some 0x000000 /\
  rgb_from_ansi256 7 = Some 0xefefef /\
  rgb_from_ansi256 15 = Some 0xffffff.
Proof.
  intros Hidx. split; [|repeat split].
  assert (Hall : all_below 16 system_region_b = true) by (vm_compute; reflexivity).
  pose proof (all_below_sound 16 _ Hall idx ltac:(lia)) as Hok.
  unfold system_region_b in Hok.
  destruct (rgb_from_ansi256 idx) as [c|]; [|discriminate].
  destruct (lookup system_colours idx) as [s|]; [|discriminate].
  apply Z.eqb_eq in Hok. subst s. exists c. split; reflexivity.
Qed.

Lemma rgb_from_ansi256_system_colours_witness :
  0 <= 12 <= 15 /\
  exists c, lookup system_colours 12 = Some c /\ rgb_from_ansi256 12 = Some c.
Proof.
  assert (Hidx : 0 <= 12 <= 15) by lia.
  split; [exact Hidx|].
  apply (rgb_from_ansi256_system_colours 12 Hidx).
Defined.

(** C3.  On [16,231] [rgb_from_ansi256] returns the colour whose red,
    green and blue bytes are the cube levels {0,95,135,175,215,255} at the
    base-6 digits [(idx-16)/36], [((idx-16)/6) mod 6] and [(idx-16) mod 6],
    red in the highest byte; index 196 gives 0xff0000. *)
Theorem rgb_from_ansi256_colour_cube (idx : Z) :
  16 <= idx <= 231 ->
  let offset := idx - 16 in
  let r := Spec.cube_level (offset / 36) in
  let g := Spec.cube_level ((offset / 6) mod 6) in
  let b := Spec.cube_level (offset mod 6) in
  rgb_from_ansi256 idx = Some (Spec.rgb r g b) /\
  cube_value (offset / 36) = Some r /\
  cube_value ((offset / 6) mod 6) = Some g /\
  cube_value (offset mod 6) = Some b /\
  R (Spec.rgb r g b) = r /\ G (Spec.rgb r g b) = g /\ B (Spec.rgb r g b) = b /\
  rgb_from_ansi256 196 = Some 0xff0000.
Proof.
  intros Hidx.
  assert (Hall : all_below 232 (fun i => (i <? 16) || cube_region_b i) = true)
    by (vm_compute; reflexivity).
  pose proof (all_between_sound 16 232 _ ltac:(lia) Hall idx ltac:(lia)) as Hok.
  unfold cube_region_b in Hok. cbv zeta in *.
  repeat (apply andb_true_iff in Hok; destruct Hok as [Hok ?]).
  repeat split;
    try (apply Z.eqb_eq; assumption);
    try (apply option_eqb_eq; assumption).
Qed.

Lemma rgb_from_ansi256_colour_cube_witness :
  16 <= 59 <= 231 /\ rgb_from_ansi256 59 = Some (Spec.rgb 95 95 95).
Proof.
  assert (Hidx : 16 <= 59 <= 231) by lia.
  split; [exact Hidx|].
  apply (rgb_from_ansi256_colour_cube 59 Hidx).
Defined.

(** C4.  On [232,255] [rgb_from_ansi256] returns the grey whose three
    channels all equal [(idx-232)*10+8]; indices 232 and 255 give 0x080808
    and 0xeeeeee. *)
Theorem rgb_from_ansi256_grey_ramp (idx : Z) :
  232 <= idx <= 255 ->
  let level := (idx - 232) * 10 + 8 in
  rgb_from_ansi256 idx = Some (Spec.rgb level level level) /\
  R (Spec.rgb level level level) = level /\
  G (Spec.rgb level level level) = level /\
  B (Spec.rgb level level level) = level /\
  rgb_from_ansi256 232 = Some 0x080808 /\
  rgb_from_ansi256 255 = Some 0xeeeeee.
Proof.
  intros Hidx.
  assert (Hall : all_below 256 (fun i => (i <? 232) || grey_ramp_b i) = true)
    by (vm_compute; reflexivity).
  pose proof (all_between_sound 232 256 _ ltac:(lia) Hall idx ltac:(lia)) as Hok.
  unfold grey_ramp_b in Hok. cbv zeta in *.
  repeat (apply andb_true_iff in Hok; destruct Hok as [Hok ?]).
  repeat split;
    try (apply Z.eqb_eq; assumption);
    try (apply option_eqb_eq; assumption).
Qed.

Lemma rgb_from_ansi256_grey_ramp_witness :
  232 <= 244 <= 255 /\ rgb_from_ansi256 244 = Some (Spec.rgb 128 128 128).
Proof.
  assert (Hidx : 232 <= 244 <= 255) by lia.
  split; [exact Hidx|].
  apply (rgb_from_ansi256_grey_ramp 244 Hidx).
Defined.

(** * The distance heuristic: sanity *)

(** C6.  For 24-bit colours [distance x x] is 0, [distance] is symmetric,
    and [distance x y] is a non-negative integer: every [int32_t] step of
    [(1024 + r_sum)*dr^2 + 2048*dg^2 + (1534 - r_sum)*db^2] stays inside the
    type (the embedding answers [Some]), and the value is that of the
    formula over the unbounded integers. *)
Theorem distance_sanity (x y : Z) :
  Spec.is_rgb24 x -> Spec.is_rgb24 y ->
  distance x x = Some 0 /\
  distance x y = distance y x /\
  exists d,
    distance x y = Some d /\
    0 <= d <= int32_max /\
    let r_sum := R x + R y in
    let dr := R x - R y in
    let dg := G x - G y in
    let db := B x - B y in
    d = (1024 + r_sum) * dr ^ 2 + 2048 * dg ^ 2 + (1534 - r_sum) * db ^ 2.
Proof.
  intros _ _. split; [|split].
  - rewrite (proj1 (distance_exact x x)). f_equal.
    unfold Spec.distance. rewrite !Z.sub_diag. ring.
  - rewrite (proj1 (distance_exact x y)), (proj1 (distance_exact y x)).
    f_equal. unfold Spec.distance. ring.
  - exists (Spec.distance x y).
    destruct (distance_exact x y) as [Heq Hrange].
    split; [exact Heq|]. split; [exact Hrange|]. reflexivity.
Qed.

Lemma distance_sanity_witness :
  Spec.is_rgb24 0xff0000 /\ Spec.is_rgb24 0x3a3a3a /\
  distance 0xff0000 0x3a3a3a = distance 0x3a3a3a 0xff0000.
Proof.
  assert (Hx : Spec.is_rgb24 0xff0000) by (unfold Spec.is_rgb24; lia).
  assert (Hy : Spec.is_rgb24 0x3a3a3a) by (unfold Spec.is_rgb24; lia).
  split; [exact Hx|]. split; [exact Hy|].
  apply (distance_sanity 0xff0000 0x3a3a3a Hx Hy).
Defined.

(** * Totality and table bounds *)

(** C8.  Both conversions are total: [rgb_from_ansi256] is defined on all
    256 indices and [ansi256_from_rgb] on all 2^24 colours.  A table read
    outside its table has no result in the embedding, so a defined result
    means every read on the path taken was in bounds; the arguments of the
    reads are bounded by the table sizes 16, 256 and 6 as well. *)
Theorem conversions_total (idx rgb : Z) :
  Spec.is_u8 idx -> Spec.is_rgb24 rgb ->
  (exists c, rgb_from_ansi256 idx = Some c /\ 0 <= c < 2 ^ 24) /\
  (exists i, ansi256_from_rgb rgb = Some i /\ 0 <= i <= 255) /\
  (forall (A : Type) (tbl : list A) (i : Z),
     (exists v, lookup tbl i = Some v) <-> 0 <= i < Z.of_nat (length tbl)) /\
  (length system_colours = 16 /\ length ansi256_from_grey = 256 /\
   length values = 6)%nat /\
  table_accesses_b idx = true /\
  0 <= Z.land rgb 0xff <= 255 /\
  0 <= luminance rgb <= 255.
Proof.
  intros Hidx _. split; [|split; [|split; [|split; [|split; [|split]]]]].
  - apply rgb_from_ansi256_defined. exact Hidx.
  - destruct (is_grey rgb) eqn:Hgrey.
    + rewrite (ansi256_from_rgb_grey rgb Hgrey).
      destruct (ansi256_from_grey_entries (B rgb) (B_range rgb)) as (v & Hv & Hrange).
      exists v. split; [exact Hv | lia].
    + destruct (ansi256_from_rgb_non_grey rgb Hgrey)
        as (grey_idx & grey_rgb & cube_rgb & _ & Hrange & _ & _ & Hres).
      destruct (digit_ranges rgb) as (Hdr & Hdg & Hdb).
      pose proof (cube_top_range _ _ _ (cube_facts_all _ _ _ Hdr Hdg Hdb)) as Hcube.
      rewrite Hres. eexists. split; [reflexivity|].
      destruct (_ <? _); lia.
  - intros A tbl i. apply lookup_defined_iff.
  - repeat split.
  - assert (Hall : all_below 256 table_accesses_b = true) by (vm_compute; reflexivity).
    apply (all_below_sound 256 _ Hall). unfold Spec.is_u8 in Hidx. lia.
  - apply land_255_range.
  - apply luminance_exact.
Qed.

Lemma conversions_total_witness :
  Spec.is_u8 100 /\ Spec.is_rgb24 0x5f5f60 /\
  (exists c, rgb_from_ansi256 100 = Some c /\ 0 <= c < 2 ^ 24) /\
  (exists i, ansi256_from_rgb 0x5f5f60 = Some i /\ 0 <= i <= 255).
Proof.
  assert (Hidx : Spec.is_u8 100) by (unfold Spec.is_u8; lia).
  assert (Hrgb : Spec.is_rgb24 0x5f5f60) by (unfold Spec.is_rgb24; lia).
  split; [exact Hidx|]. split; [exact Hrgb|].
  destruct (conversions_total 100 0x5f5f60 Hidx Hrgb) as (Hfwd & Hrev & _).
  split; [exact Hfwd | exact Hrev].
Defined.


(** * Round trips between the two conversions *)

(** Whatever the argument, [ansi256_from_rgb] answers with an index
    outside the system colours. *)
Lemma ansi256_from_rgb_defined (rgb : Z) :
  exists i, ansi256_from_rgb rgb = Some i /\ 16 <= i <= 255.
Proof.
  destruct (is_grey rgb) eqn:Hgrey.
  - rewrite (ansi256_from_rgb_grey rgb Hgrey).
    apply ansi256_from_grey_entries, B_range.
  - destruct (ansi256_from_rgb_non_grey rgb Hgrey)
      as (grey_idx & grey_rgb & cube_rgb & _ & Hrange & _ & _ & Hres).
    destruct (digit_ranges rgb) as (Hdr & Hdg & Hdb).
    pose proof (cube_top_range _ _ _ (cube_facts_all _ _ _ Hdr Hdg Hdb)) as Hcube.
    rewrite Hres. eexists. split; [reflexivity|].
    destruct (_ <? _); lia.
Qed.

Lemma round_trip_all (idx : Z) :
  16 <= idx <= 255 ->
  exists c, rgb_from_ansi256 idx = Some c /\ ansi256_from_rgb c = Some idx.
Proof.
  intros Hidx.
  assert (Hall : all_below 256 (fun i => (i <? 16) || round_trip_b i) = true)
    by (vm_compute; reflexivity).
  pose proof (all_between_sound 16 256 _ ltac:(lia) Hall idx ltac:(lia)) as Hok.
  unfold round_trip_b in Hok.
  destruct (rgb_from_ansi256 idx) as [c|]; [|discriminate].
  exists c. split; [reflexivity | apply option_eqb_eq, Hok].
Qed.

(** X1.  Every index of the colour cube and of the grey ramp is recovered
    from its own colour: converting index [idx] in [16,255] to RGB and back
    gives [idx] again. *)
Theorem ansi256_from_rgb_inverts_rgb_from_ansi256 (idx : Z) :
  16 <= idx <= 255 ->
  exists c, rgb_from_ansi256 idx = Some c /\ ansi256_from_rgb c = Some idx.
Proof. apply round_trip_all. Qed.

Lemma ansi256_from_rgb_inverts_rgb_from_ansi256_witness :
  16 <= 110 <= 255 /\
  exists c, rgb_from_ansi256 110 = Some c /\ ansi256_from_rgb c = Some 110.
Proof.
  assert (Hidx : 16 <= 110 <= 255) by lia.
  split; [exact Hidx|].
  apply (ansi256_from_rgb_inverts_rgb_from_ansi256 110 Hidx).
Defined.

(** X2.  No two indices of [16,255] share a colour: the colour cube and
    the grey ramp do not overlap and have no duplicates. *)
Theorem rgb_from_ansi256_injective_above_system (i j : Z) :
  16 <= i <= 255 -> 16 <= j <= 255 -> i <> j ->
  rgb_from_ansi256 i <> rgb_from_ansi256 j.
Proof.
  intros Hi Hj Hne Heq.
  destruct (round_trip_all i Hi) as (ci & Hci & Hbi).
  destruct (round_trip_all j Hj) as (cj & Hcj & Hbj).
  rewrite Hci, Hcj in Heq. injection Heq as ->. congruence.
Qed.

Lemma rgb_from_ansi256_injective_above_system_witness :
  16 <= 59 <= 255 /\ 16 <= 240 <= 255 /\ 59 <> 240 /\
  rgb_from_ansi256 59 <> rgb_from_ansi256 240.
Proof.
  assert (Hi : 16 <= 59 <= 255) by lia.
  assert (Hj : 16 <= 240 <= 255) by lia.
  assert (Hne : 59 <> 240) by lia.
  split; [exact Hi|]. split; [exact Hj|]. split; [exact Hne|].
  apply (rgb_from_ansi256_injective_above_system 59 240 Hi Hj Hne).
Defined.

(** X3.  Approximating is idempotent: the palette colour chosen for any
    input is itself sent to the same index. *)
Theorem approximation_idempotent (rgb : Z) :
  exists i c,
    ansi256_from_rgb rgb = Some i /\
    rgb_from_ansi256 i = Some c /\
    ansi256_from_rgb c = Some i.
Proof.
  destruct (ansi256_from_rgb_defined rgb) as (i & Hi & Hrange).
  destruct (round_trip_all i Hrange) as (c & Hc & Hback).
  exists i, c. repeat split; assumption.
Qed.

(** X4.  The cube candidate of a colour of the cube is that very entry:
    for [idx] in [16,231] with colour [c], the packed candidate of [c] has
    [idx] in its top byte and [c] below, so the quantisers leave the six
    cube levels where they are. *)
Theorem cube_candidate_exact_on_cube (idx : Z) :
  16 <= idx <= 231 ->
  exists c,
    rgb_from_ansi256 idx = Some c /\
    cube_candidate c = idx * 2 ^ 24 + c /\
    distance c (cube_candidate c) = Some 0.
Proof.
  intros Hidx.
  assert (Hall : all_below 232 (fun i => (i <? 16) || cube_exact_b i) = true)
    by (vm_compute; reflexivity).
  pose proof (all_between_sound 16 232 _ ltac:(lia) Hall idx ltac:(lia)) as Hok.
  unfold cube_exact_b in Hok.
  destruct (rgb_from_ansi256 idx) as [c|]; [|discriminate].
  apply andb_true_iff in Hok as [Hcube Hzero].
  apply Z.eqb_eq in Hcube. apply option_eqb_eq in Hzero.
  exists c. repeat split; assumption.
Qed.

Lemma cube_candidate_exact_on_cube_witness :
  16 <= 196 <= 231 /\
  exists c, rgb_from_ansi256 196 = Some c /\ cube_candidate c = 196 * 2 ^ 24 + c.
Proof.
  assert (Hidx : 16 <= 196 <= 231) by lia.
  split; [exact Hidx|].
  destruct (cube_candidate_exact_on_cube 196 Hidx) as (c & Hc & Hcube & _).
  exists c. split; assumption.
Defined.

(** * The channel quantisers *)

Section QuantiserMonotone.

Variable IDX : Z -> Z -> Z.
Variables a b c d e : Z.

Hypothesis IDX_increases :
  IDX 0 0 <= IDX 1 95 /\ IDX 1 95 <= IDX 2 135 /\ IDX 2 135 <= IDX 3 175 /\
  IDX 3 175 <= IDX 4 215 /\ IDX 4 215 <= IDX 5 255.

(** A larger value is never put in an earlier bucket. *)
Lemma CUBE_THRESHOLDS_monotone (v w : Z) :
  v <= w -> CUBE_THRESHOLDS IDX a b c d e v <= CUBE_THRESHOLDS IDX a b c d e w.
Proof.
  intros Hvw. unfold CUBE_THRESHOLDS.
  destruct IDX_increases as (H01 & H12 & H23 & H34 & H45).
  destruct (Z.ltb_spec v a); destruct (Z.ltb_spec w a); try lia;
  destruct (Z.ltb_spec v b); destruct (Z.ltb_spec w b); try lia;
  destruct (Z.ltb_spec v c); destruct (Z.ltb_spec w c); try lia;
  destruct (Z.ltb_spec v d); destruct (Z.ltb_spec w d); try lia;
  destruct (Z.ltb_spec v e); destruct (Z.ltb_spec w e); lia.
Qed.

End QuantiserMonotone.

Lemma CUBE_THRESHOLDS_map (f : Z -> Z) (IDX : Z -> Z -> Z) (a b c d e v : Z) :
  f (CUBE_THRESHOLDS IDX a b c d e v) =
  CUBE_THRESHOLDS (fun i level => f (IDX i level)) a b c d e v.
Proof.
  unfold CUBE_THRESHOLDS.
  destruct (v <? a); [reflexivity|].
  destruct (v <? b); [reflexivity|].
  destruct (v <? c); [reflexivity|].
  destruct (v <? d); [reflexivity|].
  destruct (v <? e); reflexivity.
Qed.

Ltac increasing_constants :=
  repeat split; apply Z.leb_le; vm_compute; reflexivity.

(** X5.  The three quantisers are monotone: a larger channel value never
    gets a smaller packed result, nor a darker cube level. *)
Theorem cube_index_monotone (v w : Z) :
  v <= w ->
  cube_index_red v <= cube_index_red w /\
  cube_index_green v <= cube_index_green w /\
  cube_index_blue v <= cube_index_blue w /\
  R (cube_index_red v) <= R (cube_index_red w) /\
  G (cube_index_green v) <= G (cube_index_green w) /\
  B (cube_index_blue v) <= B (cube_index_blue w).
Proof.
  intros Hvw. unfold cube_index_red, cube_index_green, cube_index_blue.
  rewrite !(CUBE_THRESHOLDS_map R), !(CUBE_THRESHOLDS_map G),
          !(CUBE_THRESHOLDS_map B).
  repeat split; apply CUBE_THRESHOLDS_monotone;
    solve [exact Hvw | increasing_constants].
Qed.

Lemma cube_index_monotone_witness :
  114 <= 115 /\ R (cube_index_red 114) <= R (cube_index_red 115).
Proof.
  assert (Hvw : 114 <= 115) by lia.
  split; [exact Hvw|].
  apply (cube_index_monotone 114 115 Hvw).
Defined.

(** X6.  Quantising a channel moves it by at most 57 (red), 59 (green) or
    60 (blue): the cube level stored by the quantiser is that close to the
    channel value.  The bounds are reached at the first threshold of each
    channel, 38, 36 and 35, which go to level 95. *)
Theorem cube_index_error_bound (v : Z) :
  Spec.is_u8 v ->
  (Z.abs (R (cube_index_red v) - v) <= 57 /\
   Z.abs (G (cube_index_green v) - v) <= 59 /\
   Z.abs (B (cube_index_blue v) - v) <= 60) /\
  (Z.abs (R (cube_index_red 38) - 38) = 57 /\
   Z.abs (G (cube_index_green 36) - 36) = 59 /\
   Z.abs (B (cube_index_blue 35) - 35) = 60).
Proof.
  intros Hv. split; [|repeat split; vm_compute; reflexivity]. revert Hv.
  intros Hv.
  assert (Hall : all_below 256 quantiser_error_b = true)
    by (vm_compute; reflexivity).
  pose proof (all_below_sound 256 _ Hall v) as Hok.
  unfold Spec.is_u8 in Hv. specialize (Hok ltac:(lia)).
  unfold quantiser_error_b in Hok.
  apply andb_true_iff in Hok as [Hok Hblue].
  apply andb_true_iff in Hok as [Hred Hgreen].
  apply Z.leb_le in Hred, Hgreen, Hblue. repeat split; assumption.
Qed.

Lemma cube_index_error_bound_witness :
  Spec.is_u8 38 /\ Z.abs (R (cube_index_red 38) - 38) <= 57.
Proof.
  assert (Hv : Spec.is_u8 38) by (unfold Spec.is_u8; lia).
  split; [exact Hv|].
  apply (cube_index_error_bound 38 Hv).
Defined.

(** * The system-colour test *)

(** X7.  For a [uint8_t] index the test [!(index & 0xf0)] is the test
    [index < 16], as the comment in [rgb_from_ansi256] says. *)
Theorem system_colour_test (idx : Z) :
  Spec.is_u8 idx -> (Z.land idx 0xf0 = 0 <-> idx < 16).
Proof.
  intros Hidx.
  assert (Hall : all_below 256 system_test_b = true) by (vm_compute; reflexivity).
  pose proof (all_below_sound 256 _ Hall idx) as Hok.
  unfold Spec.is_u8 in Hidx. specialize (Hok ltac:(lia)).
  unfold system_test_b in Hok. apply Bool.eqb_prop in Hok.
  rewrite <- Z.eqb_eq, <- Z.ltb_lt, Hok. reflexivity.
Qed.

Lemma system_colour_test_witness :
  Spec.is_u8 15 /\ (Z.land 15 0xf0 = 0 <-> 15 < 16).
Proof.
  assert (Hidx : Spec.is_u8 15) by (unfold Spec.is_u8; lia).
  split; [exact Hidx|].
  apply (system_colour_test 15 Hidx).
Defined.

(** * Greys *)

Lemma steps_monotone (f : Z -> Z) (n : Z) :
  (forall i, 0 <= i < n -> f i <= f (i + 1)) ->
  forall i j, 0 <= i <= j -> j <= n -> f i <= f j.
Proof.
  intros Hstep i j Hij Hjn.
  assert (Hk : forall k : nat, i + Z.of_nat k <= n -> f i <= f (i + Z.of_nat k)).
  { induction k as [|k IH]; intros Hbound.
    - rewrite Z.add_0_r. lia.
    - rewrite Nat2Z.inj_succ.
      replace (i + Z.succ (Z.of_nat k)) with (i + Z.of_nat k + 1) by lia.
      transitivity (f (i + Z.of_nat k)); [apply IH; lia | apply Hstep; lia]. }
  replace j with (i + Z.of_nat (Z.to_nat (j - i))) by lia.
  apply Hk. lia.
Qed.

Lemma grey_approximation_facts (r : Z) :
  0 <= r <= 255 ->
  exists c,
    grey_approximation r = Some c /\
    R c = G c /\ G c = B c /\ Z.abs (B c - r) <= 8 /\
    (r < 255 -> B c <= grey_level (r + 1)).
Proof.
  intros Hr.
  assert (Hall : all_below 256 grey_approximation_b = true)
    by (vm_compute; reflexivity).
  pose proof (all_below_sound 256 _ Hall r ltac:(lia)) as Hok.
  unfold grey_approximation_b in Hok.
  destruct (grey_approximation r) as [c|]; [|discriminate].
  apply andb_true_iff in Hok as [Hok Hstep].
  apply andb_true_iff in Hok as [Hok Herr].
  apply andb_true_iff in Hok as [Hrg Hgb].
  apply Z.eqb_eq in Hrg, Hgb. apply Z.leb_le in Herr.
  exists c. repeat split; try assumption.
  intros Hlt. apply orb_true_iff in Hstep as [Hlast|Hle].
  - apply Z.eqb_eq in Hlast. lia.
  - apply Z.leb_le, Hle.
Qed.

(** X8.  A grey is approximated by a grey: for [r] in [0,255] the palette
    colour chosen for [pack r r r] has three equal channels, within 8 of
    [r]. *)
Theorem grey_approximated_by_grey (r : Z) :
  Spec.is_u8 r ->
  exists i c,
    ansi256_from_rgb (pack r r r) = Some i /\
    rgb_from_ansi256 i = Some c /\
    R c = G c /\ G c = B c /\ Z.abs (B c - r) <= 8.
Proof.
  intros Hr.
  destruct (grey_approximation_facts r Hr) as (c & Hc & Hrg & Hgb & Herr & _).
  unfold grey_approximation in Hc.
  destruct (ansi256_from_rgb (pack r r r)) as [i|]; [|discriminate].
  cbn [bind] in Hc. exists i, c. repeat split; assumption.
Qed.

Lemma grey_approximated_by_grey_witness :
  Spec.is_u8 247 /\
  exists i c,
    ansi256_from_rgb (pack 247 247 247) = Some i /\
    rgb_from_ansi256 i = Some c /\ Z.abs (B c - 247) <= 8.
Proof.
  assert (Hr : Spec.is_u8 247) by (unfold Spec.is_u8; lia).
  split; [exact Hr|].
  destruct (grey_approximated_by_grey 247 Hr) as (i & c & Hi & Hc & _ & _ & Herr).
  exists i, c. repeat split; assumption.
Defined.

(** X9.  The grey approximation is monotone: a brighter grey is never
    approximated by a darker palette colour than a darker grey is. *)
Theorem grey_approximation_monotone (r r' : Z) :
  0 <= r -> r <= r' -> r' <= 255 ->
  exists c c',
    grey_approximation r = Some c /\
    grey_approximation r' = Some c' /\
    B c <= B c'.
Proof.
  intros Hlo Hle Hhi.
  destruct (grey_approximation_facts r ltac:(lia)) as (c & Hc & _).
  destruct (grey_approximation_facts r' ltac:(lia)) as (c' & Hc' & _).
  exists c, c'. split; [exact Hc|]. split; [exact Hc'|].
  assert (Hmono : grey_level r <= grey_level r').
  { apply (steps_monotone grey_level 255); try lia.
    intros i Hi.
    destruct (grey_approximation_facts i ltac:(lia)) as (ci & Hci & _ & _ & _ & Hstep).
    unfold grey_level at 1. rewrite Hci. apply Hstep. lia. }
  unfold grey_level in Hmono. rewrite Hc, Hc' in Hmono. exact Hmono.
Qed.

Lemma grey_approximation_monotone_witness :
  0 <= 91 /\ 91 <= 92 /\ 92 <= 255 /\
  exists c c',
    grey_approximation 91 = Some c /\
    grey_approximation 92 = Some c' /\
    B c <= B c'.
Proof.
  assert (Hlo : 0 <= 91) by lia.
  assert (Hle : 91 <= 92) by lia.
  assert (Hhi : 92 <= 255) by lia.
  split; [exact Hlo|]. split; [exact Hle|]. split; [exact Hhi|].
  apply (grey_approximation_monotone 91 92 Hlo Hle Hhi).
Defined.

(** * The luminance estimate: a weighted mean *)

(** X10.  The three weights add up to 2^24, so the luminance lies between
    the smallest and the largest channel; the luminance of a grey is its
    channel value, and the grey candidate of a grey would be its own table
    entry. *)
Theorem luminance_between_channels (rgb : Z) :
  3568058 + 11998262 + 1210896 = 2 ^ 24 /\
  Z.min (R rgb) (Z.min (G rgb) (B rgb)) <= luminance rgb /\
  luminance rgb <= Z.max (R rgb) (Z.max (G rgb) (B rgb)) /\
  (is_grey rgb = true -> luminance rgb = B rgb).
Proof.
  split; [reflexivity|].
  destruct (luminance_exact rgb) as [Hlum _]. rewrite Hlum.
  unfold Spec.luminance, is_grey.
  pose proof (R_range rgb) as Hr. pose proof (G_range rgb) as Hg.
  pose proof (B_range rgb) as Hb. revert Hr Hg Hb.
  generalize (R rgb) (G rgb) (B rgb). intros r g b Hr Hg Hb.
  rewrite Z.shiftr_div_pow2 by lia. change (2 ^ 24) with 16777216.
  assert (Hlow : Z.min r (Z.min g b) <=
                 (3568058 * r + 11998262 * g + 1210896 * b) / 16777216)
    by (apply Z.div_le_lower_bound; lia).
  assert (Hhigh : (3568058 * r + 11998262 * g + 1210896 * b) / 16777216 <=
                  Z.max r (Z.max g b))
    by (apply Z.div_le_upper_bound; lia).
  split; [exact Hlow|]. split; [exact Hhigh|].
  intros Hgrey. apply andb_true_iff in Hgrey as [Hrg Hgb].
  apply Z.eqb_eq in Hrg, Hgb. lia.
Qed.

(** X11.  The luminance is monotone in each channel: raising channels
    never lowers it. *)
Theorem luminance_monotone (x y : Z) :
  R x <= R y -> G x <= G y -> B x <= B y -> luminance x <= luminance y.
Proof.
  intros Hr Hg Hb.
  rewrite (proj1 (luminance_exact x)), (proj1 (luminance_exact y)).
  unfold Spec.luminance. rewrite !Z.shiftr_div_pow2 by lia.
  apply Z.div_le_mono; lia.
Qed.

Lemma luminance_monotone_witness :
  R 0x102030 <= R 0x112233 /\ G 0x102030 <= G 0x112233 /\
  B 0x102030 <= B 0x112233 /\ luminance 0x102030 <= luminance 0x112233.
Proof.
  assert (Hr : R 0x102030 <= R 0x112233) by (vm_compute; discriminate).
  assert (Hg : G 0x102030 <= G 0x112233) by (vm_compute; discriminate).
  assert (Hb : B 0x102030 <= B 0x112233) by (vm_compute; discriminate).
  split; [exact Hr|]. split; [exact Hg|]. split; [exact Hb|].
  apply (luminance_monotone 0x102030 0x112233 Hr Hg Hb).
Defined.

(** * The distance heuristic: separation *)

(** A 24-bit colour is its three channels. *)
Lemma rgb24_channels (x : Z) :
  0 <= x < 2 ^ 24 -> x = R x * 65536 + G x * 256 + B x.
Proof.
  intros Hx. change (2 ^ 24) with 16777216 in Hx. unfold R, G, B.
  assert (Hland : forall a, Z.land a 0xff = a mod 256)
    by (intros a; exact (Z.land_ones a 8 ltac:(lia))).
  rewrite !Hland, !Z.shiftr_div_pow2 by lia.
  change (2 ^ 16) with (256 * 256). change (2 ^ 8) with 256.
  rewrite <- Z.div_div by lia.
  pose proof (Z.div_mod x 256 ltac:(lia)) as H1.
  pose proof (Z.div_mod (x / 256) 256 ltac:(lia)) as H2.
  pose proof (Z.mod_pos_bound x 256 ltac:(lia)) as B1.
  pose proof (Z.mod_pos_bound (x / 256) 256 ltac:(lia)) as B2.
  rewrite (Z.mod_small (x / 256 / 256) 256) by lia.
  lia.
Qed.

Lemma distance_zero_channels (x y : Z) :
  Spec.distance x y = 0 -> R x = R y /\ G x = G y /\ B x = B y.
Proof.
  unfold Spec.distance.
  pose proof (R_range x) as Hrx. pose proof (R_range y) as Hry.
  revert Hrx Hry. generalize (R x) (R y) (G x) (G y) (B x) (B y).
  intros rx ry gx gy bx by_ Hrx Hry Hzero.
  rewrite !Z.pow_2_r in Hzero.
  pose proof (Z.square_nonneg (rx - ry)) as Hr2.
  pose proof (Z.square_nonneg (gx - gy)) as Hg2.
  pose proof (Z.square_nonneg (bx - by_)) as Hb2.
  assert (Hr0 : (rx - ry) * (rx - ry) = 0) by nia.
  assert (Hg0 : (gx - gy) * (gx - gy) = 0) by nia.
  assert (Hb0 : (bx - by_) * (bx - by_) = 0) by nia.
  nia.
Qed.

(** X12.  On 24-bit colours [distance] separates points: it is 0 exactly
    for two equal colours. *)
Theorem distance_zero_iff_equal (x y : Z) :
  Spec.is_rgb24 x -> Spec.is_rgb24 y ->
  (distance x y = Some 0 <-> x = y).
Proof.
  intros Hx Hy. rewrite (proj1 (distance_exact x y)). split.
  - intros Hzero. injection Hzero as Hzero.
    destruct (distance_zero_channels x y Hzero) as (Hr & Hg & Hb).
    rewrite (rgb24_channels x Hx), (rgb24_channels y Hy). congruence.
  - intros ->. f_equal. unfold Spec.distance. rewrite !Z.sub_diag. ring.
Qed.

Lemma distance_zero_iff_equal_witness :
  Spec.is_rgb24 0x5f5f5f /\ Spec.is_rgb24 0x5f5f60 /\
  (distance 0x5f5f5f 0x5f5f60 = Some 0 <-> 0x5f5f5f = 0x5f5f60).
Proof.
  assert (Hx : Spec.is_rgb24 0x5f5f5f) by (unfold Spec.is_rgb24; lia).
  assert (Hy : Spec.is_rgb24 0x5f5f60) by (unfold Spec.is_rgb24; lia).
  split; [exact Hx|]. split; [exact Hy|].
  apply (distance_zero_iff_equal 0x5f5f5f 0x5f5f60 Hx Hy).
Defined.

(** * What [ansi256_from_rgb] reads of its argument *)

Lemma ansi256_from_rgb_channels (x y : Z) :
  R x = R y -> G x = G y -> B x = B y ->
  ansi256_from_rgb x = ansi256_from_rgb y.
Proof.
  intros Hr Hg Hb.
  unfold ansi256_from_rgb, is_grey, luminance, cube_candidate, distance.
  change (Z.land x 0xff) with (B x). change (Z.land y 0xff) with (B y).
  rewrite Hr, Hg, Hb. reflexivity.
Qed.

Lemma testbit_ones_8 (n : Z) : 0 <= n -> Z.testbit 0xff n = (n <? 8).
Proof.
  intros Hn. change 0xff with (Z.ones 8).
  rewrite Z.testbit_ones by lia.
  destruct (Z.leb_spec 0 n); [reflexivity | lia].
Qed.

Lemma testbit_ones_24 (n : Z) : 0 <= n -> Z.testbit 0xffffff n = (n <? 24).
Proof.
  intros Hn. change 0xffffff with (Z.ones 24).
  rewrite Z.testbit_ones by lia.
  destruct (Z.leb_spec 0 n); [reflexivity | lia].
Qed.

(** Bits 24 and above take no part in the channels. *)
Lemma channels_low24 (x : Z) :
  R (Z.land x 0xffffff) = R x /\
  G (Z.land x 0xffffff) = G x /\
  B (Z.land x 0xffffff) = B x.
Proof.
  unfold R, G, B. repeat split; apply Z.bits_inj'; intros n Hn;
    rewrite ?Z.land_spec, ?Z.shiftr_spec, ?Z.land_spec by lia;
    rewrite testbit_ones_8 by lia; rewrite ?testbit_ones_24 by lia;
    destruct (Z.ltb_spec n 8) as [Hlt|Hge];
    rewrite ?andb_false_r; try reflexivity.
  - destruct (Z.ltb_spec (n + 16) 24); [|lia].
    rewrite andb_true_r. reflexivity.
  - destruct (Z.ltb_spec (n + 8) 24); [|lia].
    rewrite andb_true_r. reflexivity.
  - destruct (Z.ltb_spec n 24); [|lia].
    rewrite andb_true_r. reflexivity.
Qed.

(** X13.  [ansi256_from_rgb] looks at the three channels only: two
    arguments with the same channels get the same answer, so the top byte
    of the [uint32_t] argument is ignored. *)
Theorem ansi256_from_rgb_ignores_top_byte (rgb : Z) :
  (forall other, R other = R rgb -> G other = G rgb -> B other = B rgb ->
                 ansi256_from_rgb other = ansi256_from_rgb rgb) /\
  ansi256_from_rgb (Z.land rgb 0xffffff) = ansi256_from_rgb rgb.
Proof.
  split.
  - intros other. apply ansi256_from_rgb_channels.
  - destruct (channels_low24 rgb) as (Hr & Hg & Hb).
    apply ansi256_from_rgb_channels; assumption.
Qed.

Lemma ansi256_from_rgb_ignores_top_byte_witness :
  ansi256_from_rgb 0x80ff0000 = ansi256_from_rgb 0xff0000.
Proof.
  apply (proj1 (ansi256_from_rgb_ignores_top_byte 0xff0000) 0x80ff0000);
    vm_compute; reflexivity.
Defined.

(** * The caller: [parse_u8] and [main] *)

Lemma read_digits_nonneg (s : String.string) (acc : Z) :
  0 <= acc -> 0 <= fst (read_digits acc s).
Proof.
  revert acc. induction s as [|ch s IH]; intros acc Hacc.
  - exact Hacc.
  - cbn [read_digits].
    destruct (Z.leb_spec 0 (Z.of_N (Ascii.N_of_ascii ch) - 48)) as [Hlo|Hlo];
      [|exact Hacc].
    destruct (Z.of_N (Ascii.N_of_ascii ch) - 48 <=? 9); [|exact Hacc].
    apply IH. lia.
Qed.

Lemma sample_strtoul_unsigned (s : String.string) :
  0 <= st_value (sample_strtoul s).
Proof.
  unfold sample_strtoul.
  pose proof (read_digits_nonneg s 0 ltac:(lia)) as Hv.
  destruct (read_digits 0 s) as [v r]. cbn [fst] in Hv.
  destruct (v <? 2 ^ 64); cbn [st_value]; lia.
Qed.

Section Convert.

Variable strtoul : String.string -> strtoul_result.
Variable argv0 : String.string.

(** [strtoul] returns an [unsigned long]. *)
Hypothesis strtoul_unsigned : forall s, 0 <= st_value (strtoul s).

Lemma accepted_range (arg : String.string) :
  accepted (strtoul arg) = true -> 0 <= st_value (strtoul arg) <= 255.
Proof.
  unfold accepted. intros Hacc.
  apply andb_true_iff in Hacc as [Hacc _].
  apply andb_true_iff in Hacc as [Hle _].
  apply Z.leb_le in Hle. pose proof (strtoul_unsigned arg). lia.
Qed.

Lemma parse_u8_accepted (arg : String.string) :
  accepted (strtoul arg) = true ->
  parse_u8 strtoul argv0 arg = (st_value (strtoul arg), []).
Proof.
  intros Hacc. unfold parse_u8. rewrite Hacc.
  rewrite u32_small by (pose proof (accepted_range arg Hacc); lia).
  reflexivity.
Qed.

Lemma parse_u8_rejected (arg : String.string) :
  accepted (strtoul arg) = false ->
  parse_u8 strtoul argv0 arg = (4294967295, [expected_u8 argv0 arg]).
Proof. intros Hrej. unfold parse_u8. rewrite Hrej. reflexivity. Qed.

Lemma accepted_not_failed (arg : String.string) :
  accepted (strtoul arg) = true ->
  (st_value (strtoul arg) =? u32 (-1)) = false.
Proof.
  intros Hacc. pose proof (accepted_range arg Hacc) as Hrange.
  change (u32 (-1)) with 4294967295. apply Z.eqb_neq. lia.
Qed.

Lemma main_argc_2 (arg1 : String.string) :
  main strtoul [argv0; arg1] =
  let (idx, out) := parse_u8 strtoul argv0 arg1 in
  if idx =? u32 (-1) then Some (1, out)
  else rgb <- rgb_from_ansi256 (u8 idx) ;;
       Some (0, out ++ [print_index idx rgb]).
Proof. reflexivity. Qed.

Lemma main_argc_4 (arg1 arg2 arg3 : String.string) :
  main strtoul [argv0; arg1; arg2; arg3] =
  let (r, out_r) := parse_u8 strtoul argv0 arg1 in
  if r =? u32 (-1) then Some (1, out_r)
  else
    let (g, out_g) := parse_u8 strtoul argv0 arg2 in
    if g =? u32 (-1) then Some (1, out_r ++ out_g)
    else
      let (b, out_b) := parse_u8 strtoul argv0 arg3 in
      if b =? u32 (-1) then Some (1, out_r ++ out_g ++ out_b)
      else
        idx <- ansi256_from_rgb (pack r g b) ;;
        approx <- rgb_from_ansi256 idx ;;
        Some (0, out_r ++ out_g ++ out_b ++ [print_approx (pack r g b) idx approx]).
Proof. reflexivity. Qed.

Lemma main_index_accepted (arg1 : String.string) :
  accepted (strtoul arg1) = true ->
  exists rgb,
    rgb_from_ansi256 (st_value (strtoul arg1)) = Some rgb /\
    main strtoul [argv0; arg1] =
    Some (0, [print_index (st_value (strtoul arg1)) rgb]).
Proof.
  intros Hacc. pose proof (accepted_range arg1 Hacc) as Hrange.
  destruct (rgb_from_ansi256_defined _ Hrange) as (rgb & Hrgb & _).
  exists rgb. split; [exact Hrgb|].
  rewrite main_argc_2, (parse_u8_accepted arg1 Hacc).
  rewrite (accepted_not_failed arg1 Hacc).
  rewrite u8_small by exact Hrange. rewrite Hrgb. reflexivity.
Qed.

Lemma main_rgb_accepted (arg1 arg2 arg3 : String.string) :
  accepted (strtoul arg1) = true ->
  accepted (strtoul arg2) = true ->
  accepted (strtoul arg3) = true ->
  let rgb := pack (st_value (strtoul arg1)) (st_value (strtoul arg2))
                  (st_value (strtoul arg3)) in
  exists idx approx,
    ansi256_from_rgb rgb = Some idx /\
    16 <= idx <= 255 /\
    rgb_from_ansi256 idx = Some approx /\
    ansi256_from_rgb approx = Some idx /\
    main strtoul [argv0; arg1; arg2; arg3] =
    Some (0, [print_approx rgb idx approx]).
Proof.
  intros H1 H2 H3 rgb.
  destruct (ansi256_from_rgb_defined rgb) as (idx & Hidx & Hrange).
  destruct (round_trip_all idx Hrange) as (approx & Happrox & Hback).
  exists idx, approx. repeat split; try assumption; try lia.
  rewrite main_argc_4.
  rewrite (parse_u8_accepted arg1 H1), (accepted_not_failed arg1 H1).
  rewrite (parse_u8_accepted arg2 H2), (accepted_not_failed arg2 H2).
  rewrite (parse_u8_accepted arg3 H3), (accepted_not_failed arg3 H3).
  fold rgb. rewrite Hidx. cbn [bind]. rewrite Happrox. reflexivity.
Qed.

Lemma main_first_rejected_4 (arg1 arg2 arg3 : String.string) :
  (accepted (strtoul arg1) = false ->
   main strtoul [argv0; arg1; arg2; arg3] = Some (1, [expected_u8 argv0 arg1])) /\
  (accepted (strtoul arg1) = true -> accepted (strtoul arg2) = false ->
   main strtoul [argv0; arg1; arg2; arg3] = Some (1, [expected_u8 argv0 arg2])) /\
  (accepted (strtoul arg1) = true -> accepted (strtoul arg2) = true ->
   accepted (strtoul arg3) = false ->
   main strtoul [argv0; arg1; arg2; arg3] = Some (1, [expected_u8 argv0 arg3])).
Proof.
  rewrite main_argc_4. repeat split.
  - intros H1. rewrite (parse_u8_rejected arg1 H1). reflexivity.
  - intros H1 H2.
    rewrite (parse_u8_accepted arg1 H1), (accepted_not_failed arg1 H1).
    rewrite (parse_u8_rejected arg2 H2). reflexivity.
  - intros H1 H2 H3.
    rewrite (parse_u8_accepted arg1 H1), (accepted_not_failed arg1 H1).
    rewrite (parse_u8_accepted arg2 H2), (accepted_not_failed arg2 H2).
    rewrite (parse_u8_rejected arg3 H3). reflexivity.
Qed.

Lemma main_rejected_2 (arg1 : String.string) :
  accepted (strtoul arg1) = false ->
  main strtoul [argv0; arg1] = Some (1, [expected_u8 argv0 arg1]).
Proof.
  intros H1. rewrite main_argc_2, (parse_u8_rejected arg1 H1). reflexivity.
Qed.

Lemma main_usage (args : list String.string) :
  length args <> 1%nat -> length args <> 3%nat ->
  main strtoul (argv0 :: args) = Some (1, [usage argv0]).
Proof.
  intros Hne1 Hne3. unfold main. cbn [length].
  destruct (Z.eqb_spec (Z.of_nat (S (length args))) 2) as [H2|_]; [lia|].
  destruct (Z.eqb_spec (Z.of_nat (S (length args))) 4) as [H4|_]; [lia|].
  reflexivity.
Qed.

End Convert.

(** String literals, for running [main] on sample arguments. *)
Import String.

(** X14.  The result of [parse_u8] tells acceptance from rejection: for an
    unsigned [strtoul] value it is either the value itself, at most 255,
    with nothing written, or [(uint32_t)-1] with one diagnostic on
    [stderr]; the marker is returned exactly for a rejected argument, so the
    comparison in [main] cannot mistake a number for a failure. *)
Theorem parse_u8_result (strtoul : String.string -> strtoul_result)
    (argv0 arg : String.string) :
  0 <= st_value (strtoul arg) ->
  ((accepted (strtoul arg) = true /\
    parse_u8 strtoul argv0 arg = (st_value (strtoul arg), []) /\
    st_value (strtoul arg) <= 255) \/
   (accepted (strtoul arg) = false /\
    parse_u8 strtoul argv0 arg = (4294967295, [expected_u8 argv0 arg]))) /\
  (fst (parse_u8 strtoul argv0 arg) = 4294967295 <->
   accepted (strtoul arg) = false).
Proof.
  intros Hnonneg. unfold parse_u8.
  destruct (accepted (strtoul arg)) eqn:Hacc.
  - assert (Hle : st_value (strtoul arg) <= 255).
    { unfold accepted in Hacc.
      apply andb_true_iff in Hacc as [Hacc _].
      apply andb_true_iff in Hacc as [Hle _].
      apply Z.leb_le, Hle. }
    rewrite u32_small by lia. cbn [fst]. split.
    + left. repeat split. exact Hle.
    + split; [lia | discriminate].
  - change (u32 (-1)) with 4294967295. cbn [fst]. split.
    + right. split; reflexivity.
    + split; reflexivity.
Qed.

Lemma parse_u8_result_witness :
  0 <= st_value (sample_strtoul "256"%string) /\
  parse_u8 sample_strtoul "convert"%string "256"%string =
  (4294967295, [expected_u8 "convert"%string "256"%string]).
Proof.
  assert (Hnonneg : 0 <= st_value (sample_strtoul "256"%string))
    by (vm_compute; discriminate).
  split; [exact Hnonneg|].
  destruct (proj1 (parse_u8_result sample_strtoul "convert"%string "256"%string
                     Hnonneg)) as [(Hacc & _)|(_ & Hres)].
  - vm_compute in Hacc. discriminate Hacc.
  - exact Hres.
Defined.

(** X15.  Given three accepted channel arguments, [main] exits with 0 and
    writes one line to [stdout] and nothing else: the packed colour, the
    index [ansi256_from_rgb] gives it, which is at least 16, and the colour
    of that index, which is itself sent to the same index. *)
Theorem main_prints_approximation (strtoul : String.string -> strtoul_result)
    (argv0 arg1 arg2 arg3 : String.string) :
  (forall s, 0 <= st_value (strtoul s)) ->
  accepted (strtoul arg1) = true ->
  accepted (strtoul arg2) = true ->
  accepted (strtoul arg3) = true ->
  let rgb := pack (st_value (strtoul arg1)) (st_value (strtoul arg2))
                  (st_value (strtoul arg3)) in
  exists idx approx,
    ansi256_from_rgb rgb = Some idx /\
    16 <= idx <= 255 /\
    rgb_from_ansi256 idx = Some approx /\
    ansi256_from_rgb approx = Some idx /\
    main strtoul [argv0; arg1; arg2; arg3] =
    Some (0, [print_approx rgb idx approx]).
Proof.
  intros Hunsigned. apply (main_rgb_accepted strtoul argv0 Hunsigned).
Qed.

Lemma main_prints_approximation_witness :
  (forall s, 0 <= st_value (sample_strtoul s)) /\
  accepted (sample_strtoul "255"%string) = true /\
  accepted (sample_strtoul "0"%string) = true /\
  exists idx approx,
    main sample_strtoul ["convert"; "255"; "0"; "0"]%string =
    Some (0, [print_approx 0xff0000 idx approx]).
Proof.
  split; [exact sample_strtoul_unsigned|].
  split; [reflexivity|]. split; [reflexivity|].
  destruct (main_prints_approximation sample_strtoul
              "convert"%string "255"%string "0"%string "0"%string
              sample_strtoul_unsigned eq_refl eq_refl eq_refl)
    as (idx & approx & _ & _ & _ & _ & Hmain).
  exists idx, approx. exact Hmain.
Defined.

(** X16.  Given one accepted index argument, [main] exits with 0 and
    writes one line to [stdout] and nothing else: the index and the colour
    [rgb_from_ansi256] gives it. *)
Theorem main_prints_colour (strtoul : String.string -> strtoul_result)
    (argv0 arg1 : String.string) :
  (forall s, 0 <= st_value (strtoul s)) ->
  accepted (strtoul arg1) = true ->
  exists rgb,
    rgb_from_ansi256 (st_value (strtoul arg1)) = Some rgb /\
    main strtoul [argv0; arg1] =
    Some (0, [print_index (st_value (strtoul arg1)) rgb]).
Proof.
  intros Hunsigned. apply (main_index_accepted strtoul argv0 Hunsigned).
Qed.

Lemma main_prints_colour_witness :
  (forall s, 0 <= st_value (sample_strtoul s)) /\
  accepted (sample_strtoul "196"%string) = true /\
  exists rgb,
    main sample_strtoul ["convert"; "196"]%string =
    Some (0, [print_index 196 rgb]).
Proof.
  split; [exact sample_strtoul_unsigned|]. split; [reflexivity|].
  destruct (main_prints_colour sample_strtoul "convert"%string "196"%string
              sample_strtoul_unsigned eq_refl) as (rgb & _ & Hmain).
  exists rgb. exact Hmain.
Defined.

(** X17.  [main] stops at the first rejected argument: it exits with 1,
    the only thing written is the diagnostic naming that argument, the
    arguments after it are not looked at, and no usage line is written. *)
Theorem main_reports_first_rejected (strtoul : String.string -> strtoul_result)
    (argv0 arg1 arg2 arg3 : String.string) :
  (forall s, 0 <= st_value (strtoul s)) ->
  (accepted (strtoul arg1) = false ->
   main strtoul [argv0; arg1] = Some (1, [expected_u8 argv0 arg1]) /\
   main strtoul [argv0; arg1; arg2; arg3] = Some (1, [expected_u8 argv0 arg1])) /\
  (accepted (strtoul arg1) = true -> accepted (strtoul arg2) = false ->
   main strtoul [argv0; arg1; arg2; arg3] = Some (1, [expected_u8 argv0 arg2])) /\
  (accepted (strtoul arg1) = true -> accepted (strtoul arg2) = true ->
   accepted (strtoul arg3) = false ->
   main strtoul [argv0; arg1; arg2; arg3] = Some (1, [expected_u8 argv0 arg3])).
Proof.
  intros Hunsigned.
  destruct (main_first_rejected_4 strtoul argv0 Hunsigned arg1 arg2 arg3)
    as (Hfirst & Hsecond & Hthird).
  split; [|split; assumption].
  intros Hrej. split; [|exact (Hfirst Hrej)].
  apply main_rejected_2, Hrej.
Qed.

Lemma main_reports_first_rejected_witness :
  (forall s, 0 <= st_value (sample_strtoul s)) /\
  accepted (sample_strtoul "12"%string) = true /\
  accepted (sample_strtoul "1x"%string) = false /\
  main sample_strtoul ["convert"; "12"; "1x"; "-3"]%string =
  Some (1, [expected_u8 "convert"%string "1x"%string]).
Proof.
  split; [exact sample_strtoul_unsigned|].
  split; [reflexivity|]. split; [reflexivity|].
  apply (proj1 (proj2 (main_reports_first_rejected sample_strtoul
                         "convert"%string "12"%string "1x"%string "-3"%string
                         sample_strtoul_unsigned)));
    reflexivity.
Defined.

(** X18.  Whatever its arguments, [main] writes exactly one line: exit
    status 0 goes with a line on [stdout] and exit status 1 with a line on
    [stderr]; and that line is the usage line exactly when the number of
    arguments after the program name is neither 1 nor 3. *)
Theorem main_writes_one_line (strtoul : String.string -> strtoul_result)
    (argv0 : String.string) (args : list String.string) :
  (forall s, 0 <= st_value (strtoul s)) ->
  exists status line,
    main strtoul (argv0 :: args) = Some (status, [line]) /\
    ((status = 0 /\ is_stdout line = true) \/
     (status = 1 /\ is_stdout line = false)) /\
    (line = usage argv0 <->
     (List.length args <> 1 /\ List.length args <> 3)%nat).
Proof.
  intros Hunsigned.
  destruct args as [|arg1 [|arg2 [|arg3 [|arg4 more]]]].
  - exists 1, (usage argv0). rewrite main_usage by (cbn; lia).
    split; [reflexivity|]. split; [right; split; reflexivity|].
    split; [intros _; cbn; lia | reflexivity].
  - destruct (accepted (strtoul arg1)) eqn:H1.
    + destruct (main_index_accepted strtoul argv0 Hunsigned arg1 H1)
        as (rgb & _ & Hmain).
      eexists _, _. split; [exact Hmain|].
      split; [left; split; reflexivity|].
      split; [discriminate | cbn; lia].
    + eexists _, _. split; [exact (main_rejected_2 strtoul argv0 arg1 H1)|].
      split; [right; split; reflexivity|].
      split; [discriminate | cbn; lia].
  - exists 1, (usage argv0). rewrite main_usage by (cbn; lia).
    split; [reflexivity|]. split; [right; split; reflexivity|].
    split; [intros _; cbn; lia | reflexivity].
  - destruct (main_first_rejected_4 strtoul argv0 Hunsigned arg1 arg2 arg3)
      as (Hfirst & Hsecond & Hthird).
    destruct (accepted (strtoul arg1)) eqn:H1;
      [destruct (accepted (strtoul arg2)) eqn:H2;
         [destruct (accepted (strtoul arg3)) eqn:H3|]|].
    + destruct (main_rgb_accepted strtoul argv0 Hunsigned arg1 arg2 arg3 H1 H2 H3)
        as (idx & approx & _ & _ & _ & _ & Hmain).
      eexists _, _. split; [exact Hmain|].
      split; [left; split; reflexivity|].
      split; [discriminate | cbn; lia].
    + eexists _, _. split; [exact (Hthird eq_refl eq_refl eq_refl)|].
      split; [right; split; reflexivity|].
      split; [discriminate | cbn; lia].
    + eexists _, _. split; [exact (Hsecond eq_refl eq_refl)|].
      split; [right; split; reflexivity|].
      split; [discriminate | cbn; lia].
    + eexists _, _. split; [exact (Hfirst eq_refl)|].
      split; [right; split; reflexivity|].
      split; [discriminate | cbn; lia].
  - exists 1, (usage argv0). rewrite main_usage by (cbn [List.length]; lia).
    split; [reflexivity|]. split; [right; split; reflexivity|].
    split; [intros _; cbn [List.length]; lia | reflexivity].
Qed.

Lemma main_writes_one_line_witness :
  (forall s, 0 <= st_value (sample_strtoul s)) /\
  exists status line,
    main sample_strtoul ["convert"; "1"; "2"]%string = Some (status, [line]) /\
    line = usage "convert"%string.
Proof.
  split; [exact sample_strtoul_unsigned|].
  destruct (main_writes_one_line sample_strtoul "convert"%string
              ["1"; "2"]%string sample_strtoul_unsigned)
    as (status & line & Hmain & _ & Husage).
  exists status, line. split; [exact Hmain|].
  apply Husage. cbn. split; discriminate.
Defined.
